(** * Cosmos Journeyer: the fly-by mission node and the contact-station filter

    A shallow embedding of
    - [MissionFlyByNode] (missions/nodes/actions/sightseeing/missionFlyByNode.ts),
      the state machine of a fly-by mission around a target object;
    - the contact-station list built by [generateMissionsDom]
      (ui/spaceStation/spaceStationMissions.ts).

    JavaScript numbers are modelled by the rationals [Q]: the arithmetic the
    two functions perform is one product by a small constant and one
    quotient, and every comparison is read off [Qcompare].  NaN and the
    infinities have no counterpart here.  Methods of the class are
    computations over [this] that may throw. *)

From Stdlib Require Import ZArith QArith Qabs Qminmax List Bool String.
From Stdlib Require Import Sorted Permutation Lia Lqa.
Import ListNotations.

Set Warnings "-register-all".

(* ================================================================== *)
(** * Part I: definitions                                              *)
(* ================================================================== *)

(** ** Numbers *)

(** The JavaScript comparison [a < b] on numbers. *)
Definition Qltb (a b : Q) : bool :=
  match (a ?= b)%Q with
  | Lt => true
  | _ => false
  end.

(** ** Babylon.js vectors *)

Record Vector3 : Type := mkVector3 { x : Q; y : Q; z : Q }.

(** ** utils/coordinates/universeCoordinates *)

Module UniverseCoordinates.

(** Modelled from the spec: the declaration of [StarSystemCoordinates] is
    not among the sources.  The spec describes it as "galactic
    sector/position indices", a value type compared structurally. *)
Record StarSystemCoordinates : Type := mkStarSystemCoordinates {
  sectorX : Z;
  sectorY : Z;
  sectorZ : Z;
  positionX : Z;
  positionY : Z;
  positionZ : Z
}.

(** Modelled from the spec: [starSystemCoordinatesEquals] is not among the
    sources; "equality by structural comparison", field by field. *)
Definition starSystemCoordinatesEquals (a b : StarSystemCoordinates) : bool :=
  (sectorX a =? sectorX b)%Z && (sectorY a =? sectorY b)%Z
  && (sectorZ a =? sectorZ b)%Z && (positionX a =? positionX b)%Z
  && (positionY a =? positionY b)%Z && (positionZ a =? positionZ b)%Z.

(** The in-system part of an identifier: "an in-system object index/path". *)
Definition LocalObjectPath : Type := list nat.

Fixpoint localObjectPathEquals (p q : LocalObjectPath) : bool :=
  match p, q with
  | [], [] => true
  | i :: p', j :: q' => Nat.eqb i j && localObjectPathEquals p' q'
  | _, _ => false
  end.

(** Modelled from the spec: the declaration of [UniverseObjectId] is not
    among the sources; "composite of a StarSystemCoordinates plus an
    in-system object index/path". *)
Record UniverseObjectId : Type := mkUniverseObjectId {
  starSystemCoordinates : StarSystemCoordinates;
  localObjectPath : LocalObjectPath
}.

(** Modelled from the spec: [universeObjectIdEquals] is not among the
    sources; it "compares embedded coordinates, then local object path". *)
Definition universeObjectIdEquals (a b : UniverseObjectId) : bool :=
  starSystemCoordinatesEquals (starSystemCoordinates a) (starSystemCoordinates b)
  && localObjectPathEquals (localObjectPath a) (localObjectPath b).

End UniverseCoordinates.
Export UniverseCoordinates.

(** ** architecture/orbitalObject *)

Module OrbitalObjects.

(** The members of [OrbitalObjectType] that missionFlyByNode.ts names, and
    [OTHER_OBJECT_TYPE] for any member of the enum it does not name (the
    declaration of the enum is not among the sources). *)
Inductive OrbitalObjectType : Type :=
| STAR
| NEUTRON_STAR
| BLACK_HOLE
| TELLURIC_PLANET
| TELLURIC_SATELLITE
| GAS_PLANET
| MANDELBULB
| JULIA_SET
| SPACE_STATION
| SPACE_ELEVATOR
| OTHER_OBJECT_TYPE (tag : nat).

(** The part of an object's model the mission code reads. *)
Record OrbitalObjectModel : Type := mkOrbitalObjectModel {
  type : OrbitalObjectType;
  name : string
}.

(** A live object of a loaded system: [model],
    [getTransform().getAbsolutePosition()] and [getBoundingRadius()]. *)
Record OrbitalObject : Type := mkOrbitalObject {
  model : OrbitalObjectModel;
  getAbsolutePosition : Vector3;
  getBoundingRadius : Q
}.

End OrbitalObjects.
Export OrbitalObjects.

(** ** The loaded star system and the mission context *)

Module StarSystems.

(** The part of [StarSystemModel] the code reads: [name] (here
    [systemName]) and [coordinates]. *)
Record StarSystemModel : Type := mkStarSystemModel {
  systemName : string;
  coordinates : StarSystemCoordinates
}.

(** A loaded system: its [model] (here [systemModel]) and its live objects,
    each under its local path. *)
Record StarSystemController : Type := mkStarSystemController {
  systemModel : StarSystemModel;
  orbitalObjects : list (LocalObjectPath * OrbitalObject)
}.

(** Modelled from the spec: [getObjectBySystemId]
    (utils/coordinates/orbitalObjectId) is not among the sources.  It
    "returns the live object instance or a failure signal 'object not
    found' if the id's local path doesn't match anything in that system";
    [None] stands for the JavaScript [null]. *)
Definition getObjectBySystemId (id : UniverseObjectId)
           (starSystem : StarSystemController) : option OrbitalObject :=
  match find (fun entry => localObjectPathEquals (fst entry) (localObjectPath id))
             (orbitalObjects starSystem) with
  | Some entry => Some (snd entry)
  | None => None
  end.

(** missions/missionContext: built afresh for every evaluation. *)
Record MissionContext : Type := mkMissionContext {
  currentSystem : StarSystemController;
  playerPosition : Vector3
}.

End StarSystems.
Export StarSystems.

(** ** missions/nodes/missionNode *)

Module MissionNodes.

(** The member of [MissionNodeType] the fly-by node uses, and
    [OTHER_NODE_TYPE] for the members it does not name (the declaration of
    the enum is not among the sources). *)
Inductive MissionNodeType : Type :=
| FLY_BY
| OTHER_NODE_TYPE (tag : nat).

(** [MissionNodeSerialized]: the fields every persisted node has. *)
Inductive MissionNodeSerialized : Type :=
| mkMissionNodeSerialized (type : MissionNodeType)
                          (children : list MissionNodeSerialized).

End MissionNodes.
Export MissionNodes.

(** ** Methods: computations over [this] that may throw *)

Module Methods.

(** How a call ends: it returns a value or it throws. *)
Inductive Completion (E A : Type) : Type :=
| Normal (a : A)
| Throw (e : E).
Arguments Normal {E A} a.
Arguments Throw {E A} e.

(** A method of a class whose instances are of type [T]: from [this] before
    the call to the completion and [this] after it.  A throw keeps the
    assignments made before it. *)
Definition Method (T E A : Type) : Type := T -> Completion E A * T.

Definition ret {T E A} (a : A) : Method T E A :=
  fun this => (Normal a, this).

Definition bind {T E A B} (m : Method T E A) (k : A -> Method T E B)
  : Method T E B :=
  fun this =>
    match m this with
    | (Normal a, this') => k a this'
    | (Throw e, this') => (Throw e, this')
    end.

Definition throw {T E A} (e : E) : Method T E A :=
  fun this => (Throw e, this).

(** Reading a field of [this]. *)
Definition read {T E A} (field : T -> A) : Method T E A :=
  fun this => (Normal (field this), this).

(** Assigning to [this] through a field update. *)
Definition assign {T E} (update : T -> T) : Method T E unit :=
  fun this => (Normal tt, update this).

(** The value a call returned, if it returned. *)
Definition returned {E A T} (r : Completion E A * T) : option A :=
  match fst r with
  | Normal a => Some a
  | Throw _ => None
  end.

(** [this] after the call. *)
Definition after {E A T} (r : Completion E A * T) : T := snd r.

Definition throws {E A T} (r : Completion E A * T) : bool :=
  match fst r with
  | Normal _ => false
  | Throw _ => true
  end.

End Methods.
Export Methods.

Declare Scope method_scope.
Delimit Scope method_scope with method.
Notation "v <- m ;; k" := (bind m (fun v => k))
  (at level 100, m at next level, right associativity) : method_scope.
Notation "m ;;; k" := (bind m (fun _ => k))
  (at level 100, right associativity) : method_scope.

(** ** missions/nodes/actions/sightseeing/missionFlyByNode *)

Module FlyBy.

Inductive FlyByState : Type :=
| NOT_IN_SYSTEM
| TOO_FAR_IN_SYSTEM
| CLOSE_ENOUGH.

Definition FlyByState_eqb (a b : FlyByState) : bool :=
  match a, b with
  | NOT_IN_SYSTEM, NOT_IN_SYSTEM => true
  | TOO_FAR_IN_SYSTEM, TOO_FAR_IN_SYSTEM => true
  | CLOSE_ENOUGH, CLOSE_ENOUGH => true
  | _, _ => false
  end.

(** [MissionFlyByNodeSerialized = MissionNodeSerialized & { objectId, state }]:
    the fields [type], [children], [objectId] and [state]. *)
Record MissionFlyByNodeSerialized : Type := mkMissionFlyByNodeSerialized {
  ser_type : MissionNodeType;
  ser_children : list MissionNodeSerialized;
  ser_objectId : UniverseObjectId;
  ser_state : FlyByState
}.

(** The fields of the class. *)
Record MissionFlyByNode : Type := mkMissionFlyByNode {
  state : FlyByState;
  objectId : UniverseObjectId;
  targetSystemCoordinates : StarSystemCoordinates
}.

(** A mission node is a fly-by node or a node of another class; [equals]
    tells them apart with [instanceof]. *)
Inductive MissionNode : Type :=
| FlyByNode (node : MissionFlyByNode)
| OtherMissionNode (tag : nat).

(** [new Error(`Could not find object with ID ...`)]. *)
Inductive Error : Type :=
| CouldNotFindObject (id : UniverseObjectId).

Definition M (A : Type) : Type := Method MissionFlyByNode Error A.

(** The object with its [state] field replaced and its readonly fields
    kept. *)
Definition withState (s : FlyByState) (this : MissionFlyByNode) : MissionFlyByNode :=
  {| state := s;
     objectId := objectId this;
     targetSystemCoordinates := targetSystemCoordinates this |}.

(** [this.state = s]. *)
Definition assignState (s : FlyByState) : M unit :=
  assign (withState s).

(** The constructor; the field initialiser sets [state]. *)
Definition new_MissionFlyByNode (id : UniverseObjectId) : MissionFlyByNode :=
  {| state := NOT_IN_SYSTEM;
     objectId := id;
     targetSystemCoordinates := starSystemCoordinates id |}.

Local Open Scope method_scope.

Definition setState (s : FlyByState) : M unit :=
  assignState s.

Definition isCompleted : M bool :=
  s <- read state ;;
  ret (FlyByState_eqb s CLOSE_ENOUGH).

Definition equals (other : MissionNode) : M bool :=
  match other with
  | OtherMissionNode _ => ret false
  | FlyByNode other' =>
      id <- read objectId ;;
      ret (universeObjectIdEquals id (objectId other'))
  end.

(** The [switch] on [targetObject.model.type]; [thresholdMultiplier]
    starts at 1 and the types of a group of [case] labels share a body. *)
Definition thresholdMultiplier (t : OrbitalObjectType) : Q :=
  match t with
  | STAR
  | TELLURIC_PLANET
  | TELLURIC_SATELLITE
  | GAS_PLANET
  | MANDELBULB
  | JULIA_SET
  | SPACE_STATION
  | SPACE_ELEVATOR => 3
  | NEUTRON_STAR => 50
  | BLACK_HOLE => 10
  | OTHER_OBJECT_TYPE _ => 1
  end.

Section UpdateState.

(** Babylon's [Vector3.Distance]; the rationals have no square root, so
    the function is left open. *)
Variable Vector3_Distance : Vector3 -> Vector3 -> Q.

Definition updateState (context : MissionContext) : M unit :=
  completed <- isCompleted ;;
  if completed then ret tt
  else
    let currentSystem := currentSystem context in
    let currentSystemModel := systemModel currentSystem in
    target <- read targetSystemCoordinates ;;
    if negb (starSystemCoordinatesEquals (coordinates currentSystemModel) target)
    then assignState NOT_IN_SYSTEM
    else
      id <- read objectId ;;
      match getObjectBySystemId id currentSystem with
      | None => throw (CouldNotFindObject id)
      | Some targetObject =>
          let playerPosition := playerPosition context in
          let distance :=
            Vector3_Distance playerPosition (getAbsolutePosition targetObject) in
          let thresholdMultiplier := thresholdMultiplier (type (model targetObject)) in
          let distanceThreshold :=
            (getBoundingRadius targetObject * thresholdMultiplier)%Q in
          if Qltb distance distanceThreshold
          then assignState CLOSE_ENOUGH
          else assignState TOO_FAR_IN_SYSTEM
      end.

End UpdateState.

Definition getTargetSystems : M (list StarSystemCoordinates) :=
  target <- read targetSystemCoordinates ;;
  ret [target].

Definition serialize : M MissionFlyByNodeSerialized :=
  id <- read objectId ;;
  s <- read state ;;
  ret {| ser_type := FLY_BY;
         ser_children := [];
         ser_objectId := id;
         ser_state := s |}.

(** The keyboard layout, a [Map<string, string>]. *)
Definition KeyboardLayout : Type := list (string * string).

Section Describe.

(** Functions the two describing methods import; none of them is among
    the sources, and none receives [this]. *)
Variable Vector3_Distance : Vector3 -> Vector3 -> Q.
Variable getStarGalacticPosition : StarSystemCoordinates -> Vector3.
Variable getObjectModelByUniverseId : UniverseObjectId -> OrbitalObjectModel.
Variable getSystemModelFromCoordinates : StarSystemCoordinates -> StarSystemModel.
Variable getOrbitalObjectTypeToI18nString : OrbitalObjectModel -> string.
Variable parseDistance : Q -> string.
Variable LIGHT_YEAR : Q.
Variable i18n_t : string -> list (string * string) -> string.
Variable getGoToSystemInstructions :
  MissionContext -> StarSystemCoordinates -> KeyboardLayout -> string.

Local Open Scope string_scope.

Definition describe (originSystemCoordinates : StarSystemCoordinates) : M string :=
  target <- read targetSystemCoordinates ;;
  let distance :=
    Vector3_Distance (getStarGalacticPosition originSystemCoordinates)
                     (getStarGalacticPosition target) in
  id <- read objectId ;;
  let objectModel := getObjectModelByUniverseId id in
  let systemModel := getSystemModelFromCoordinates target in
  ret (i18n_t "missions:sightseeing:describeFlyBy"
         [ ("objectType", getOrbitalObjectTypeToI18nString objectModel);
           ("systemName", systemName systemModel);
           ("distance",
             if Qltb 0 distance
             then parseDistance (distance * LIGHT_YEAR)%Q
             else i18n_t "missions:common:here" []) ]).

Definition describeNextTask (context : MissionContext)
           (keyboardLayout : KeyboardLayout) : M string :=
  completed <- isCompleted ;;
  if completed then ret (i18n_t "missions:flyBy:missionCompleted" [])
  else
    id <- read objectId ;;
    let targetObject := getObjectModelByUniverseId id in
    s <- read state ;;
    match s with
    | NOT_IN_SYSTEM =>
        target <- read targetSystemCoordinates ;;
        ret (getGoToSystemInstructions context target keyboardLayout)
    | TOO_FAR_IN_SYSTEM =>
        ret (i18n_t "missions:common:getCloserToTarget"
               [ ("objectName", name targetObject) ])
    | CLOSE_ENOUGH =>
        ret (i18n_t "missions:flyBy:missionCompleted" [])
    end.

End Describe.

Section Calls.

Variable Vector3_Distance : Vector3 -> Vector3 -> Q.
Variable getStarGalacticPosition : StarSystemCoordinates -> Vector3.
Variable getObjectModelByUniverseId : UniverseObjectId -> OrbitalObjectModel.
Variable getSystemModelFromCoordinates : StarSystemCoordinates -> StarSystemModel.
Variable getOrbitalObjectTypeToI18nString : OrbitalObjectModel -> string.
Variable parseDistance : Q -> string.
Variable LIGHT_YEAR : Q.
Variable i18n_t : string -> list (string * string) -> string.
Variable getGoToSystemInstructions :
  MissionContext -> StarSystemCoordinates -> KeyboardLayout -> string.

(** One [updateState] per evaluation tick, each with its own context. *)
Fixpoint updateStateEach (contexts : list MissionContext) : M unit :=
  match contexts with
  | [] => ret tt
  | context :: later => updateState Vector3_Distance context ;;; updateStateEach later
  end.

(** A call of one public method of the class. *)
Inductive Call : Type :=
| CallSetState (s : FlyByState)
| CallUpdateState (context : MissionContext)
| CallIsCompleted
| CallEquals (other : MissionNode)
| CallDescribe (originSystemCoordinates : StarSystemCoordinates)
| CallDescribeNextTask (context : MissionContext) (keyboardLayout : KeyboardLayout)
| CallGetTargetSystems
| CallSerialize.

(** [this] after a call, whichever way the call ended. *)
Definition afterCall (c : Call) (this : MissionFlyByNode) : MissionFlyByNode :=
  match c with
  | CallSetState s => after (setState s this)
  | CallUpdateState context => after (updateState Vector3_Distance context this)
  | CallIsCompleted => after (isCompleted this)
  | CallEquals other => after (equals other this)
  | CallDescribe origin =>
      after (describe Vector3_Distance getStarGalacticPosition
               getObjectModelByUniverseId getSystemModelFromCoordinates
               getOrbitalObjectTypeToI18nString parseDistance LIGHT_YEAR
               i18n_t origin this)
  | CallDescribeNextTask context keyboardLayout =>
      after (describeNextTask getObjectModelByUniverseId i18n_t
               getGoToSystemInstructions context keyboardLayout this)
  | CallGetTargetSystems => after (getTargetSystems this)
  | CallSerialize => after (serialize this)
  end.

(** The calls of a history, oldest first; a caller that catches a throw
    goes on with the same object. *)
Definition afterCalls (history : list Call) (this : MissionFlyByNode)
  : MissionFlyByNode :=
  fold_left (fun node c => afterCall c node) history this.

Definition modifiesState (c : Call) : bool :=
  match c with
  | CallSetState _ | CallUpdateState _ => true
  | _ => false
  end.

End Calls.

(** The lookup table of the spec, "keyed by object type, default 1". *)
Definition OrbitalObjectType_eqb (a b : OrbitalObjectType) : bool :=
  match a, b with
  | STAR, STAR
  | NEUTRON_STAR, NEUTRON_STAR
  | BLACK_HOLE, BLACK_HOLE
  | TELLURIC_PLANET, TELLURIC_PLANET
  | TELLURIC_SATELLITE, TELLURIC_SATELLITE
  | GAS_PLANET, GAS_PLANET
  | MANDELBULB, MANDELBULB
  | JULIA_SET, JULIA_SET
  | SPACE_STATION, SPACE_STATION
  | SPACE_ELEVATOR, SPACE_ELEVATOR => true
  | OTHER_OBJECT_TYPE i, OTHER_OBJECT_TYPE j => Nat.eqb i j
  | _, _ => false
  end.

Definition specMultiplierTable : list (OrbitalObjectType * Q) :=
  [ (STAR, 3); (TELLURIC_PLANET, 3); (TELLURIC_SATELLITE, 3); (GAS_PLANET, 3);
    (MANDELBULB, 3); (JULIA_SET, 3); (SPACE_STATION, 3); (SPACE_ELEVATOR, 3);
    (NEUTRON_STAR, 50); (BLACK_HOLE, 10) ]%Q.

Definition specMultiplier (t : OrbitalObjectType) : Q :=
  match find (fun entry => OrbitalObjectType_eqb (fst entry) t) specMultiplierTable with
  | Some entry => snd entry
  | None => 1
  end.

(** Modelled from the spec: the deserializer of fly-by nodes is not among
    the sources; it constructs the node from the record's [objectId] and
    applies [setState] to the record's [state] ("Useful when deserializing
    an ongoing mission", says [setState]). *)
Definition deserialize (m : MissionFlyByNodeSerialized) : MissionFlyByNode :=
  after (setState (ser_state m) (new_MissionFlyByNode (ser_objectId m))).

End FlyBy.
Export FlyBy.

(** ** ui/spaceStation/spaceStationMissions *)

Module SpaceStationMissions.

(** [Array.prototype.filter] with a callback that reads the index. *)
Fixpoint Array_filter_from {A : Type} (callback : A -> nat -> bool)
         (index : nat) (array : list A) : list A :=
  match array with
  | [] => []
  | element :: rest =>
      if callback element index
      then element :: Array_filter_from callback (S index) rest
      else Array_filter_from callback (S index) rest
  end.

Definition Array_filter {A : Type} (callback : A -> nat -> bool)
           (array : list A) : list A :=
  Array_filter_from callback 0 array.

(** [Array.prototype.sort] with a compare function: a stable sort, here by
    insertion; [a] goes before [b] unless [compareFn a b] is positive. *)
Fixpoint Array_sort_insert {A : Type} (compareFn : A -> A -> Q)
         (a : A) (sorted : list A) : list A :=
  match sorted with
  | [] => [a]
  | b :: rest =>
      if Qle_bool (compareFn a b) 0
      then a :: b :: rest
      else b :: Array_sort_insert compareFn a rest
  end.

Definition Array_sort {A : Type} (compareFn : A -> A -> Q)
           (array : list A) : list A :=
  fold_right (Array_sort_insert compareFn) [] array.

(** The part of [OrbitalFacilityModel] the function reads: [name], [seed],
    [faction] and [starSystemCoordinates] (here [facilityName] and
    [facilityCoordinates]); a faction is a member of an enum, compared with
    [===]. *)
Record OrbitalFacilityModel : Type := mkOrbitalFacilityModel {
  facilityName : string;
  seed : Z;
  faction : nat;
  facilityCoordinates : StarSystemCoordinates
}.

(** The probability handed to [uniformRandBool] for a station at
    [distance]. *)
Definition keepProbability (distance : Q) : Q :=
  1 / (1 + 0.02 * (distance * distance)).

(** The order of a list that ascends by distance. *)
Definition nearerOrAsFar (a b : OrbitalFacilityModel * Q) : Prop :=
  (snd a <= snd b)%Q.

Section GenerateMissionsDom.

(** Functions [generateMissionsDom] imports; none is among the sources.
    [getRngFromSeed] gives a generator read at a step, and
    [uniformRandBool p rng step] (extended-random) is the draw of a
    boolean that is true with probability [p]. *)
Variable Rng : Type.
Variable getRngFromSeed : Z -> Rng.
Variable uniformRandBool : Q -> Rng -> nat -> bool.
Variable getNeighborStarSystemCoordinates :
  StarSystemCoordinates -> Q -> list (StarSystemCoordinates * Vector3 * Q).
Variable getSystemModelFromCoordinates : StarSystemCoordinates -> StarSystemModel.
Variable GetSpaceStations : StarSystemModel -> list OrbitalFacilityModel.

(** The [forEach] over the neighbor systems: every station of every
    system, paired with the distance of its system. *)
Definition neighborSpaceStations (stationModel : OrbitalFacilityModel)
  : list (OrbitalFacilityModel * Q) :=
  let starSystem := getSystemModelFromCoordinates (facilityCoordinates stationModel) in
  let neighborSystems := getNeighborStarSystemCoordinates (coordinates starSystem) 75 in
  fold_left
    (fun acc neighbor =>
       let '(coordinates, _, distance) := neighbor in
       let systemModel := getSystemModelFromCoordinates coordinates in
       let spaceStations :=
         map (fun station => (station, distance)) (GetSpaceStations systemModel) in
       acc ++ spaceStations)
    neighborSystems [].

(** The callback of the first [filter]. *)
Definition pruneByDistance (rng : Rng) (candidate : OrbitalFacilityModel * Q)
           (index : nat) : bool :=
  uniformRandBool (keepProbability (snd candidate)) rng (325 + index).

(** The callback of the second [filter]. *)
Definition sameFaction (stationModel : OrbitalFacilityModel)
           (candidate : OrbitalFacilityModel * Q) : bool :=
  Nat.eqb (faction (fst candidate)) (faction stationModel).

(** The compare function of the [sort]. *)
Definition byDistance (a b : OrbitalFacilityModel * Q) : Q :=
  snd a - snd b.

(** [contactStations] once sorted, from a list of candidates. *)
Definition contactStationsOf (stationModel : OrbitalFacilityModel)
           (candidates : list (OrbitalFacilityModel * Q))
  : list (OrbitalFacilityModel * Q) :=
  let rng := getRngFromSeed (seed stationModel) in
  Array_sort byDistance
    (filter (sameFaction stationModel)
       (Array_filter (pruneByDistance rng) candidates)).

Definition contactStations (stationModel : OrbitalFacilityModel)
  : list (OrbitalFacilityModel * Q) :=
  contactStationsOf stationModel (neighborSpaceStations stationModel).

End GenerateMissionsDom.

End SpaceStationMissions.
Export SpaceStationMissions.

(** ** Concrete inputs *)

Module Examples.

Local Open Scope string_scope.

(** The distance of two points along the axes.  It is [Vector3.Distance]
    for two points that differ in one coordinate, and the points below
    differ in [x] only. *)
Definition axisDistance (a b : Vector3) : Q :=
  Qabs (x a - x b) + Qabs (y a - y b) + Qabs (z a - z b).

Definition home : StarSystemCoordinates :=
  mkStarSystemCoordinates 0 0 0 0 0 0.

Definition elsewhere : StarSystemCoordinates :=
  mkStarSystemCoordinates 1 0 0 0 0 0.

Definition starId : UniverseObjectId := mkUniverseObjectId home [0%nat].

Definition planetId : UniverseObjectId := mkUniverseObjectId home [1%nat].

(** A star of bounding radius 1 at the origin. *)
Definition star : OrbitalObject :=
  mkOrbitalObject (mkOrbitalObjectModel STAR "star") (mkVector3 0 0 0) 1.

Definition homeSystem : StarSystemController :=
  mkStarSystemController (mkStarSystemModel "home" home) [([0%nat], star)].

(** The home system with nothing loaded in it. *)
Definition hollowHomeSystem : StarSystemController :=
  mkStarSystemController (mkStarSystemModel "home" home) [].

Definition elsewhereSystem : StarSystemController :=
  mkStarSystemController (mkStarSystemModel "elsewhere" elsewhere) [].

(** The player in the home system, [d] away from the star. *)
Definition atDistance (d : Q) : MissionContext :=
  mkMissionContext homeSystem (mkVector3 d 0 0).

Definition farAway : MissionContext :=
  mkMissionContext elsewhereSystem (mkVector3 1000 0 0).

Definition inHollowHome : MissionContext :=
  mkMissionContext hollowHomeSystem (mkVector3 0 0 0).

Definition freshNode : MissionFlyByNode := new_MissionFlyByNode starId.

Definition completedNode : MissionFlyByNode :=
  after (setState CLOSE_ENOUGH freshNode).

(** A persisted fly-by record as [serialize] writes it, mid-mission. *)
Definition recordInProgress : MissionFlyByNodeSerialized :=
  mkMissionFlyByNodeSerialized FLY_BY [] starId TOO_FAR_IN_SYSTEM.

(** A station that offers missions, and the stations around it. *)
Definition offering : OrbitalFacilityModel :=
  mkOrbitalFacilityModel "offering" 43 1 home.

Definition beyond : StarSystemCoordinates :=
  mkStarSystemCoordinates 2 0 0 0 0 0.

Definition outpost : OrbitalFacilityModel :=
  mkOrbitalFacilityModel "outpost" 7 1 beyond.

Definition rival : OrbitalFacilityModel :=
  mkOrbitalFacilityModel "rival" 8 2 beyond.

Definition harbour : OrbitalFacilityModel :=
  mkOrbitalFacilityModel "harbour" 9 1 elsewhere.

(** A generator whose value at a step is a quarter of the remainder of
    seed plus step by four, and the draw that compares it with the
    probability. *)
Definition quarterRng (seed : Z) : nat -> Q :=
  fun step => inject_Z ((seed + Z.of_nat step) mod 4) / 4.

Definition thresholdDraw (p : Q) (rng : nat -> Q) (step : nat) : bool :=
  Qltb (rng step) p.

(** [beyond] is 5 away and [elsewhere] is 2 away. *)
Definition neighborsOfHome (_ : StarSystemCoordinates) (_ : Q)
  : list (StarSystemCoordinates * Vector3 * Q) :=
  [ (beyond, mkVector3 5 0 0, 5); (elsewhere, mkVector3 2 0 0, 2) ].

Definition modelAt (c : StarSystemCoordinates) : StarSystemModel :=
  mkStarSystemModel "system" c.

Definition stationsOf (m : StarSystemModel) : list OrbitalFacilityModel :=
  if starSystemCoordinatesEquals (coordinates m) beyond then [outpost; rival]
  else if starSystemCoordinatesEquals (coordinates m) elsewhere then [harbour]
  else [].

End Examples.

(** ** Concrete imports of the describing methods *)

Module DescribeExamples.

Local Open Scope string_scope.

(** Systems set along the [x] axis by their sector index. *)
Definition galacticPosition (c : StarSystemCoordinates) : Vector3 :=
  mkVector3 (inject_Z (sectorX c)) 0 0.

Definition starModel (_ : UniverseObjectId) : OrbitalObjectModel :=
  mkOrbitalObjectModel STAR "Helios".

Definition typeName (_ : OrbitalObjectModel) : string := "star".

Definition lightYears (_ : Q) : string := "some light years".

(** A translation that keeps its key and lists the values it was given. *)
Definition translate (key : string) (options : list (string * string)) : string :=
  String.concat "|" (key :: map snd options).

Definition goTo (_ : MissionContext) (_ : StarSystemCoordinates)
           (_ : KeyboardLayout) : string :=
  "open the star map".

End DescribeExamples.

(** ** Stations at a given distance *)

(** Whether a candidate is at distance [d]. *)
Definition atDistanceOf (d : Q) (candidate : OrbitalFacilityModel * Q) : bool :=
  Qeq_bool (snd candidate) d.

(** ** stellarObjects/blackHole/blackHolePostProcess *)

Module BlackHolePostProcesses.

(** The integer part of a number, towards zero. *)
Definition Qtruncate (q : Q) : Z := (Qnum q ÷ Z.pos (Qden q))%Z.

(** The JavaScript [a % b] on numbers: what is left of [a] once [b] is taken
    off as many whole times as it goes, rounding towards zero, so that the
    result has the sign of [a]. *)
Definition Number_remainder (a b : Q) : Q :=
  a - b * inject_Z (Qtruncate (a / b)).

(** The fields of [BlackHoleUniforms] the sources read or write. *)
Record BlackHoleUniforms : Type := mkBlackHoleUniforms {
  accretionDiskRadius : Q;
  warpingMinkowskiFactor : Q;
  schwarzschildRadius : Q;
  time : Q
}.

(** [this.blackHoleUniforms.time = t]. *)
Definition withTime (t : Q) (uniforms : BlackHoleUniforms) : BlackHoleUniforms :=
  {| accretionDiskRadius := accretionDiskRadius uniforms;
     warpingMinkowskiFactor := warpingMinkowskiFactor uniforms;
     schwarzschildRadius := schwarzschildRadius uniforms;
     time := t |}.

(** [BlackHolePostProcess.update], on the uniforms the post-process holds. *)
Definition update (deltaSeconds : Q) (blackHoleUniforms : BlackHoleUniforms)
  : BlackHoleUniforms :=
  let blackHoleUniforms :=
    withTime (time blackHoleUniforms + deltaSeconds) blackHoleUniforms in
  withTime (Number_remainder (time blackHoleUniforms) (60 * 60 * 24)) blackHoleUniforms.

(** One [update] per frame. *)
Definition updateEach (frames : list Q) (blackHoleUniforms : BlackHoleUniforms)
  : BlackHoleUniforms :=
  fold_left (fun uniforms deltaSeconds => update deltaSeconds uniforms)
    frames blackHoleUniforms.

Definition atNoon : BlackHoleUniforms := mkBlackHoleUniforms 8 2 1 43200.

End BlackHolePostProcesses.

(** ** spaceship/spaceship *)

Module Spaceships.

Inductive ShipState : Type :=
| FLYING
| LANDING
| LANDED.

Definition ShipState_eqb (a b : ShipState) : bool :=
  match a, b with
  | FLYING, FLYING => true
  | LANDING, LANDING => true
  | LANDED, LANDED => true
  | _, _ => false
  end.

(** Babylon's [PhysicsMotionType], the members the ship sets. *)
Inductive PhysicsMotionType : Type :=
| STATIC
| ANIMATED
| DYNAMIC.

(** A Babylon [TransformNode], by its name. *)
Record TransformNode : Type := mkTransformNode { nodeName : string }.

(** An object the ship can land on, known by reference. *)
Inductive Transformable : Type :=
| TransformableObject (reference : nat).

(** The part of [LandingPad] the ship reads: [getTransform()] and
    [padHeight]. *)
Record LandingPad : Type := mkLandingPad {
  padTransform : TransformNode;
  padHeight : Q
}.

(** architecture/celestialBody: an orbital object with a radius; its rings
    are not read by the methods below. *)
Record CelestialBody : Type := mkCelestialBody {
  orbitalObject : OrbitalObject;
  getRadius : Q
}.

(** The state of a [FuelTank] that its getters [getCurrentFuel] and
    [getMaxFuel] show, as in [SerializedFuelTank]. *)
Record FuelTank : Type := mkFuelTank {
  getCurrentFuel : Q;
  getMaxFuel : Q
}.

Record FuelScoop : Type := mkFuelScoop { fuelPerSecond : Q }.

(** The observables of the ship that the methods below notify. *)
Inductive ShipObservable : Type :=
| onFuelScoopStart
| onFuelScoopEnd
| onPlanetaryLandingEngaged
| onLandingObservable
| onLandingCancelled
| onTakeOff.

(** Calls into the engine and the console whose effect is outside the
    fields below, in the order they are made. *)
Inductive ExternalCall : Type :=
| console_log (arguments : list string)
| notifyObservers (observable : ShipObservable)
| set_rotationQuaternion_Identity
| position_copyFromFloats (x y z : Q)
| body_applyImpulse_up (scale : Q).

(** The fields of the class that the methods below use, and the properties
    of the physics aggregate and of the transform node that they set:
    [aggregate.body]'s motion type, [aggregate.shape]'s two masks and the
    transform's parent.  [absolutePosition] is what
    [getTransform().getAbsolutePosition()] answers when [handleFuelScoop]
    reads it; the methods that move the transform record their calls in
    [calls] and do not bring this field up to date, and nothing below reads
    it after such a method. *)
Record Spaceship : Type := mkSpaceship {
  name : string;
  boundingExtent : Vector3;
  mainEngineThrottle : Q;
  closestWalkableObject : option Transformable;
  landingTarget : option Transformable;
  state : ShipState;
  nearestOrbitalObject : option OrbitalObject;
  nearestCelestialBody : option CelestialBody;
  targetLandingPad : option LandingPad;
  fuelTanks : list FuelTank;
  fuelScoop : option FuelScoop;
  isFuelScooping : bool;
  motionType : PhysicsMotionType;
  filterCollideMask : Z;
  filterMembershipMask : Z;
  parent : option TransformNode;
  absolutePosition : Vector3;
  calls : list ExternalCall
}.

Definition set_mainEngineThrottle (v : Q) (this : Spaceship) : Spaceship :=
  {| name := name this;
     boundingExtent := boundingExtent this;
     mainEngineThrottle := v;
     closestWalkableObject := closestWalkableObject this;
     landingTarget := landingTarget this;
     state := state this;
     nearestOrbitalObject := nearestOrbitalObject this;
     nearestCelestialBody := nearestCelestialBody this;
     targetLandingPad := targetLandingPad this;
     fuelTanks := fuelTanks this;
     fuelScoop := fuelScoop this;
     isFuelScooping := isFuelScooping this;
     motionType := motionType this;
     filterCollideMask := filterCollideMask this;
     filterMembershipMask := filterMembershipMask this;
     parent := parent this;
     absolutePosition := absolutePosition this;
     calls := calls this |}.

Definition set_closestWalkableObject (v : option Transformable) (this : Spaceship) : Spaceship :=
  {| name := name this;
     boundingExtent := boundingExtent this;
     mainEngineThrottle := mainEngineThrottle this;
     closestWalkableObject := v;
     landingTarget := landingTarget this;
     state := state this;
     nearestOrbitalObject := nearestOrbitalObject this;
     nearestCelestialBody := nearestCelestialBody this;
     targetLandingPad := targetLandingPad this;
     fuelTanks := fuelTanks this;
     fuelScoop := fuelScoop this;
     isFuelScooping := isFuelScooping this;
     motionType := motionType this;
     filterCollideMask := filterCollideMask this;
     filterMembershipMask := filterMembershipMask this;
     parent := parent this;
     absolutePosition := absolutePosition this;
     calls := calls this |}.

Definition set_landingTarget (v : option Transformable) (this : Spaceship) : Spaceship :=
  {| name := name this;
     boundingExtent := boundingExtent this;
     mainEngineThrottle := mainEngineThrottle this;
     closestWalkableObject := closestWalkableObject this;
     landingTarget := v;
     state := state this;
     nearestOrbitalObject := nearestOrbitalObject this;
     nearestCelestialBody := nearestCelestialBody this;
     targetLandingPad := targetLandingPad this;
     fuelTanks := fuelTanks this;
     fuelScoop := fuelScoop this;
     isFuelScooping := isFuelScooping this;
     motionType := motionType this;
     filterCollideMask := filterCollideMask this;
     filterMembershipMask := filterMembershipMask this;
     parent := parent this;
     absolutePosition := absolutePosition this;
     calls := calls this |}.

Definition set_state (v : ShipState) (this : Spaceship) : Spaceship :=
  {| name := name this;
     boundingExtent := boundingExtent this;
     mainEngineThrottle := mainEngineThrottle this;
     closestWalkableObject := closestWalkableObject this;
     landingTarget := landingTarget this;
     state := v;
     nearestOrbitalObject := nearestOrbitalObject this;
     nearestCelestialBody := nearestCelestialBody this;
     targetLandingPad := targetLandingPad this;
     fuelTanks := fuelTanks this;
     fuelScoop := fuelScoop this;
     isFuelScooping := isFuelScooping this;
     motionType := motionType this;
     filterCollideMask := filterCollideMask this;
     filterMembershipMask := filterMembershipMask this;
     parent := parent this;
     absolutePosition := absolutePosition this;
     calls := calls this |}.

Definition set_nearestOrbitalObject (v : option OrbitalObject) (this : Spaceship) : Spaceship :=
  {| name := name this;
     boundingExtent := boundingExtent this;
     mainEngineThrottle := mainEngineThrottle this;
     closestWalkableObject := closestWalkableObject this;
     landingTarget := landingTarget this;
     state := state this;
     nearestOrbitalObject := v;
     nearestCelestialBody := nearestCelestialBody this;
     targetLandingPad := targetLandingPad this;
     fuelTanks := fuelTanks this;
     fuelScoop := fuelScoop this;
     isFuelScooping := isFuelScooping this;
     motionType := motionType this;
     filterCollideMask := filterCollideMask this;
     filterMembershipMask := filterMembershipMask this;
     parent := parent this;
     absolutePosition := absolutePosition this;
     calls := calls this |}.

Definition set_nearestCelestialBody (v : option CelestialBody) (this : Spaceship) : Spaceship :=
  {| name := name this;
     boundingExtent := boundingExtent this;
     mainEngineThrottle := mainEngineThrottle this;
     closestWalkableObject := closestWalkableObject this;
     landingTarget := landingTarget this;
     state := state this;
     nearestOrbitalObject := nearestOrbitalObject this;
     nearestCelestialBody := v;
     targetLandingPad := targetLandingPad this;
     fuelTanks := fuelTanks this;
     fuelScoop := fuelScoop this;
     isFuelScooping := isFuelScooping this;
     motionType := motionType this;
     filterCollideMask := filterCollideMask this;
     filterMembershipMask := filterMembershipMask this;
     parent := parent this;
     absolutePosition := absolutePosition this;
     calls := calls this |}.

Definition set_targetLandingPad (v : option LandingPad) (this : Spaceship) : Spaceship :=
  {| name := name this;
     boundingExtent := boundingExtent this;
     mainEngineThrottle := mainEngineThrottle this;
     closestWalkableObject := closestWalkableObject this;
     landingTarget := landingTarget this;
     state := state this;
     nearestOrbitalObject := nearestOrbitalObject this;
     nearestCelestialBody := nearestCelestialBody this;
     targetLandingPad := v;
     fuelTanks := fuelTanks this;
     fuelScoop := fuelScoop this;
     isFuelScooping := isFuelScooping this;
     motionType := motionType this;
     filterCollideMask := filterCollideMask this;
     filterMembershipMask := filterMembershipMask this;
     parent := parent this;
     absolutePosition := absolutePosition this;
     calls := calls this |}.

Definition set_fuelTanks (v : list FuelTank) (this : Spaceship) : Spaceship :=
  {| name := name this;
     boundingExtent := boundingExtent this;
     mainEngineThrottle := mainEngineThrottle this;
     closestWalkableObject := closestWalkableObject this;
     landingTarget := landingTarget this;
     state := state this;
     nearestOrbitalObject := nearestOrbitalObject this;
     nearestCelestialBody := nearestCelestialBody this;
     targetLandingPad := targetLandingPad this;
     fuelTanks := v;
     fuelScoop := fuelScoop this;
     isFuelScooping := isFuelScooping this;
     motionType := motionType this;
     filterCollideMask := filterCollideMask this;
     filterMembershipMask := filterMembershipMask this;
     parent := parent this;
     absolutePosition := absolutePosition this;
     calls := calls this |}.

Definition set_isFuelScooping (v : bool) (this : Spaceship) : Spaceship :=
  {| name := name this;
     boundingExtent := boundingExtent this;
     mainEngineThrottle := mainEngineThrottle this;
     closestWalkableObject := closestWalkableObject this;
     landingTarget := landingTarget this;
     state := state this;
     nearestOrbitalObject := nearestOrbitalObject this;
     nearestCelestialBody := nearestCelestialBody this;
     targetLandingPad := targetLandingPad this;
     fuelTanks := fuelTanks this;
     fuelScoop := fuelScoop this;
     isFuelScooping := v;
     motionType := motionType this;
     filterCollideMask := filterCollideMask this;
     filterMembershipMask := filterMembershipMask this;
     parent := parent this;
     absolutePosition := absolutePosition this;
     calls := calls this |}.

Definition set_motionType (v : PhysicsMotionType) (this : Spaceship) : Spaceship :=
  {| name := name this;
     boundingExtent := boundingExtent this;
     mainEngineThrottle := mainEngineThrottle this;
     closestWalkableObject := closestWalkableObject this;
     landingTarget := landingTarget this;
     state := state this;
     nearestOrbitalObject := nearestOrbitalObject this;
     nearestCelestialBody := nearestCelestialBody this;
     targetLandingPad := targetLandingPad this;
     fuelTanks := fuelTanks this;
     fuelScoop := fuelScoop this;
     isFuelScooping := isFuelScooping this;
     motionType := v;
     filterCollideMask := filterCollideMask this;
     filterMembershipMask := filterMembershipMask this;
     parent := parent this;
     absolutePosition := absolutePosition this;
     calls := calls this |}.

Definition set_filterCollideMask (v : Z) (this : Spaceship) : Spaceship :=
  {| name := name this;
     boundingExtent := boundingExtent this;
     mainEngineThrottle := mainEngineThrottle this;
     closestWalkableObject := closestWalkableObject this;
     landingTarget := landingTarget this;
     state := state this;
     nearestOrbitalObject := nearestOrbitalObject this;
     nearestCelestialBody := nearestCelestialBody this;
     targetLandingPad := targetLandingPad this;
     fuelTanks := fuelTanks this;
     fuelScoop := fuelScoop this;
     isFuelScooping := isFuelScooping this;
     motionType := motionType this;
     filterCollideMask := v;
     filterMembershipMask := filterMembershipMask this;
     parent := parent this;
     absolutePosition := absolutePosition this;
     calls := calls this |}.

Definition set_filterMembershipMask (v : Z) (this : Spaceship) : Spaceship :=
  {| name := name this;
     boundingExtent := boundingExtent this;
     mainEngineThrottle := mainEngineThrottle this;
     closestWalkableObject := closestWalkableObject this;
     landingTarget := landingTarget this;
     state := state this;
     nearestOrbitalObject := nearestOrbitalObject this;
     nearestCelestialBody := nearestCelestialBody this;
     targetLandingPad := targetLandingPad this;
     fuelTanks := fuelTanks this;
     fuelScoop := fuelScoop this;
     isFuelScooping := isFuelScooping this;
     motionType := motionType this;
     filterCollideMask := filterCollideMask this;
     filterMembershipMask := v;
     parent := parent this;
     absolutePosition := absolutePosition this;
     calls := calls this |}.

Definition set_parent (v : option TransformNode) (this : Spaceship) : Spaceship :=
  {| name := name this;
     boundingExtent := boundingExtent this;
     mainEngineThrottle := mainEngineThrottle this;
     closestWalkableObject := closestWalkableObject this;
     landingTarget := landingTarget this;
     state := state this;
     nearestOrbitalObject := nearestOrbitalObject this;
     nearestCelestialBody := nearestCelestialBody this;
     targetLandingPad := targetLandingPad this;
     fuelTanks := fuelTanks this;
     fuelScoop := fuelScoop this;
     isFuelScooping := isFuelScooping this;
     motionType := motionType this;
     filterCollideMask := filterCollideMask this;
     filterMembershipMask := filterMembershipMask this;
     parent := v;
     absolutePosition := absolutePosition this;
     calls := calls this |}.

Definition set_calls (v : list ExternalCall) (this : Spaceship) : Spaceship :=
  {| name := name this;
     boundingExtent := boundingExtent this;
     mainEngineThrottle := mainEngineThrottle this;
     closestWalkableObject := closestWalkableObject this;
     landingTarget := landingTarget this;
     state := state this;
     nearestOrbitalObject := nearestOrbitalObject this;
     nearestCelestialBody := nearestCelestialBody this;
     targetLandingPad := targetLandingPad this;
     fuelTanks := fuelTanks this;
     fuelScoop := fuelScoop this;
     isFuelScooping := isFuelScooping this;
     motionType := motionType this;
     filterCollideMask := filterCollideMask this;
     filterMembershipMask := filterMembershipMask this;
     parent := parent this;
     absolutePosition := absolutePosition this;
     calls := v |}.
(** What the methods import and the sources do not hold: the two collision
    masks of [Settings], Babylon's [Vector3.Distance], and the two methods
    of [FuelTank] that change a tank, which may throw. *)
Record Imports : Type := mkImports {
  CollisionMask_DYNAMIC_OBJECTS : Z;
  CollisionMask_ENVIRONMENT : Z;
  Vector3_Distance : Vector3 -> Vector3 -> Q;
  FuelTank_burnFuel : Q -> FuelTank -> Completion string unit * FuelTank;
  FuelTank_fill : Q -> FuelTank -> Completion string unit * FuelTank
}.

Definition M (A : Type) : Type := Method Spaceship string A.

Local Open Scope method_scope.
Local Open Scope string_scope.

(** A call recorded after the calls made so far. *)
Definition external (c : ExternalCall) : M unit :=
  assign (fun this => set_calls (calls this ++ [c]) this).

(** [this.getTransform().setParent(node)], as far as the parent goes. *)
Definition transform_setParent (node : option TransformNode) : M unit :=
  assign (set_parent node).

Definition setClosestWalkableObject (object : Transformable) : M unit :=
  assign (set_closestWalkableObject (Some object)).

Definition setNearestOrbitalObject (orbitalObject : OrbitalObject) : M unit :=
  assign (set_nearestOrbitalObject (Some orbitalObject)).

Definition setNearestCelestialBody (celestialBody : CelestialBody) : M unit :=
  assign (set_nearestCelestialBody (Some celestialBody)).

Definition setMainEngineThrottle (throttle : Q) : M unit :=
  assign (set_mainEngineThrottle throttle).

Definition increaseMainEngineThrottle (delta : Q) : M unit :=
  throttle <- read mainEngineThrottle ;;
  assign (set_mainEngineThrottle (Qmax (-1) (Qmin 1 (throttle + delta)))).

Definition getClosestWalkableObject : M (option Transformable) :=
  read closestWalkableObject.

Definition engagePlanetaryLanding (landingTarget' : option Transformable) : M unit :=
  external (console_log ["Landing sequence engaged"]) ;;;
  assign (set_motionType ANIMATED) ;;;
  assign (set_state LANDING) ;;;
  closest <- read closestWalkableObject ;;
  assign (set_landingTarget
            match landingTarget' with
            | Some target => Some target
            | None => closest
            end) ;;;
  target <- read landingTarget ;;
  match target with
  | None => throw "Landing target is null"
  | Some _ => external (notifyObservers onPlanetaryLandingEngaged)
  end.

Definition engageLandingOnPad (landingPad : LandingPad) : M unit :=
  external (console_log ["Landing on pad"; nodeName (padTransform landingPad)]) ;;;
  assign (set_targetLandingPad (Some landingPad)).

Definition getTargetLandingPad : M (option LandingPad) :=
  read targetLandingPad.

Section WithImports.

Variable imports : Imports.

Definition completeLanding : M unit :=
  external (console_log ["Landing sequence complete"]) ;;;
  assign (set_state LANDED) ;;;
  assign (set_motionType STATIC) ;;;
  assign (set_filterCollideMask (CollisionMask_DYNAMIC_OBJECTS imports)) ;;;
  assign (set_filterMembershipMask (CollisionMask_ENVIRONMENT imports)) ;;;
  pad <- read targetLandingPad ;;
  match pad with
  | Some landingPad => transform_setParent (Some (padTransform landingPad))
  | None => ret tt
  end ;;;
  assign (set_landingTarget None) ;;;
  external (notifyObservers onLandingObservable).

Definition cancelLanding : M unit :=
  assign (set_state FLYING) ;;;
  assign (set_motionType DYNAMIC) ;;;
  assign (set_filterCollideMask
            (Z.lor (CollisionMask_DYNAMIC_OBJECTS imports)
                   (CollisionMask_ENVIRONMENT imports))) ;;;
  assign (set_filterMembershipMask (CollisionMask_DYNAMIC_OBJECTS imports)) ;;;
  transform_setParent None ;;;
  assign (set_landingTarget None) ;;;
  assign (set_targetLandingPad None) ;;;
  external (notifyObservers onLandingCancelled).

Definition spawnOnPad (landingPad : LandingPad) : M unit :=
  transform_setParent None ;;;
  engageLandingOnPad landingPad ;;;
  external set_rotationQuaternion_Identity ;;;
  extent <- read boundingExtent ;;
  external (position_copyFromFloats 0 (y extent / 2) 0) ;;;
  assign (set_parent (Some (padTransform landingPad))) ;;;
  completeLanding.

Definition isLanded : M bool :=
  s <- read state ;;
  ret (ShipState_eqb s LANDED).

Definition isLanding : M bool :=
  s <- read state ;;
  ret (ShipState_eqb s LANDING).

Definition isLandedAtFacility : M bool :=
  landed <- isLanded ;;
  if landed
  then pad <- read targetLandingPad ;;
       ret match pad with Some _ => true | None => false end
  else ret false.

Definition takeOff : M unit :=
  assign (set_targetLandingPad None) ;;;
  assign (set_state FLYING) ;;;
  assign (set_motionType DYNAMIC) ;;;
  assign (set_filterCollideMask
            (Z.lor (CollisionMask_DYNAMIC_OBJECTS imports)
                   (CollisionMask_ENVIRONMENT imports))) ;;;
  assign (set_filterMembershipMask (CollisionMask_DYNAMIC_OBJECTS imports)) ;;;
  transform_setParent None ;;;
  external (body_applyImpulse_up 200) ;;;
  external (notifyObservers onTakeOff).

(** [fuelTanks.reduce((acc, tank) => acc + f(tank), 0)].  The sum is exact
    here, where the code rounds at each addition; the properties below
    compare it and do not compute with it. *)
Definition reduceSum (f : FuelTank -> Q) (tanks : list FuelTank) : Q :=
  fold_left (fun acc tank => acc + f tank) tanks 0.

Definition getTotalFuelCapacity : M Q :=
  tanks <- read fuelTanks ;;
  ret (reduceSum getMaxFuel tanks).

Definition getRemainingFuel : M Q :=
  tanks <- read fuelTanks ;;
  ret (reduceSum getCurrentFuel tanks).

(** The loop of [burnFuel] over the tanks: the fuel left to burn after the
    last tank, or the throw of a tank, and the tanks as the loop left
    them. *)
Fixpoint burnFuelLoop (tanks : list FuelTank) (fuelLeftToBurn : Q)
  : Completion string Q * list FuelTank :=
  match tanks with
  | [] => (Normal fuelLeftToBurn, [])
  | tank :: later =>
      let tankRemainingBefore := getCurrentFuel tank in
      match FuelTank_burnFuel imports (Qmin fuelLeftToBurn tankRemainingBefore) tank with
      | (Throw e, tank') => (Throw e, tank' :: later)
      | (Normal _, tank') =>
          let tankRemainingAfter := getCurrentFuel tank' in
          let fuelLeftToBurn :=
            fuelLeftToBurn - (tankRemainingBefore - tankRemainingAfter) in
          let (completion, later') := burnFuelLoop later fuelLeftToBurn in
          (completion, tank' :: later')
      end
  end.

Definition burnFuel (amount : Q) : M Q :=
  remaining <- getRemainingFuel ;;
  if Qltb remaining amount
  then throw "Not enough fuel in the tanks."
  else
    tanks <- read fuelTanks ;;
    let (completion, tanks') := burnFuelLoop tanks amount in
    assign (set_fuelTanks tanks') ;;;
    match completion with
    | Normal fuelLeftToBurn => ret (amount - fuelLeftToBurn)
    | Throw e => throw e
    end.

(** The loop of [refuel] over the tanks. *)
Fixpoint refuelLoop (tanks : list FuelTank) (fuelLeftToRefuel : Q)
  : Completion string Q * list FuelTank :=
  match tanks with
  | [] => (Normal fuelLeftToRefuel, [])
  | tank :: later =>
      let tankRemainingBefore := getCurrentFuel tank in
      match FuelTank_fill imports
              (Qmin fuelLeftToRefuel (getMaxFuel tank - tankRemainingBefore)) tank with
      | (Throw e, tank') => (Throw e, tank' :: later)
      | (Normal _, tank') =>
          let tankRemainingAfter := getCurrentFuel tank' in
          let fuelLeftToRefuel :=
            fuelLeftToRefuel - (tankRemainingAfter - tankRemainingBefore) in
          let (completion, later') := refuelLoop later fuelLeftToRefuel in
          (completion, tank' :: later')
      end
  end.

Definition refuel (amount : Q) : M Q :=
  tanks <- read fuelTanks ;;
  let (completion, tanks') := refuelLoop tanks amount in
  assign (set_fuelTanks tanks') ;;;
  match completion with
  | Normal fuelLeftToRefuel => ret (amount - fuelLeftToRefuel)
  | Throw e => throw e
  end.

(** The early [return] taken when the tanks are full or the body is too
    far. *)
Definition stopFuelScooping : M unit :=
  scooping <- read isFuelScooping ;;
  if scooping
  then assign (set_isFuelScooping false) ;;;
       external (notifyObservers onFuelScoopEnd)
  else ret tt.

Definition handleFuelScoop (deltaSeconds : Q) : M unit :=
  scoop <- read fuelScoop ;;
  match scoop with
  | None => ret tt
  | Some fuelScoop =>
      body <- read nearestCelestialBody ;;
      match body with
      | None => ret tt
      | Some nearestCelestialBody =>
          let bodyType := type (model (orbitalObject nearestCelestialBody)) in
          if negb (existsb (OrbitalObjectType_eqb bodyType) [STAR; GAS_PLANET])
          then ret tt
          else
            position <- read absolutePosition ;;
            let distanceToBody :=
              Vector3_Distance imports position
                (getAbsolutePosition (orbitalObject nearestCelestialBody)) in
            remaining <- getRemainingFuel ;;
            capacity <- getTotalFuelCapacity ;;
            let currentFuelPercentage := remaining / capacity in
            if Qltb (Qabs (currentFuelPercentage - 1)) 0.01
               || Qltb (getBoundingRadius (orbitalObject nearestCelestialBody) * 1.7)
                       distanceToBody
            then stopFuelScooping
            else
              scooping <- read isFuelScooping ;;
              (if negb scooping
               then assign (set_isFuelScooping true) ;;;
                    external (notifyObservers onFuelScoopStart)
               else ret tt) ;;;
              let fuelAvailability :=
                match bodyType with
                | STAR => 1
                | GAS_PLANET => 0.3
                | _ => 0
                end in
              refuel (fuelPerSecond fuelScoop * fuelAvailability * deltaSeconds) ;;;
              ret tt
      end
  end.

(** One [handleFuelScoop] per frame; a throw ends the run. *)
Fixpoint handleFuelScoopEach (frames : list Q) : M unit :=
  match frames with
  | [] => ret tt
  | deltaSeconds :: later => handleFuelScoop deltaSeconds ;;; handleFuelScoopEach later
  end.

End WithImports.

(** How often an observable was notified among the calls recorded. *)
Definition ShipObservable_index (observable : ShipObservable) : nat :=
  match observable with
  | onFuelScoopStart => 0
  | onFuelScoopEnd => 1
  | onPlanetaryLandingEngaged => 2
  | onLandingObservable => 3
  | onLandingCancelled => 4
  | onTakeOff => 5
  end.

Definition notifies (observable : ShipObservable) (c : ExternalCall) : bool :=
  match c with
  | notifyObservers notified =>
      Nat.eqb (ShipObservable_index notified) (ShipObservable_index observable)
  | _ => false
  end.

Definition countNotifications (observable : ShipObservable)
           (recorded : list ExternalCall) : nat :=
  List.length (filter (notifies observable) recorded).


(** A [FuelTank.fill] that returns whenever it is asked for no more than the
    room the tank has. *)
Definition takesWhatFits (imports : Imports) : Prop :=
  forall (amount : Q) (tank : FuelTank),
    (amount <= getMaxFuel tank - getCurrentFuel tank)%Q ->
    throws (FuelTank_fill imports amount tank) = false.

End Spaceships.

(** ** Concrete ships *)

Module ShipExamples.

Import Spaceships.

Local Open Scope string_scope.

(** A tank that takes off what it is asked to burn and adds what it is
    asked to take, and throws when it cannot. *)
Definition plainBurnFuel (amount : Q) (tank : FuelTank)
  : Completion string unit * FuelTank :=
  if Qltb (getCurrentFuel tank) amount
  then (Throw "tank: not enough fuel", tank)
  else (Normal tt, mkFuelTank (getCurrentFuel tank - amount) (getMaxFuel tank)).

Definition plainFill (amount : Q) (tank : FuelTank)
  : Completion string unit * FuelTank :=
  if Qltb (getMaxFuel tank) (getCurrentFuel tank + amount)
  then (Throw "tank: overflow", tank)
  else (Normal tt, mkFuelTank (getCurrentFuel tank + amount) (getMaxFuel tank)).

Definition plainImports : Imports :=
  mkImports 2 1 Examples.axisDistance plainBurnFuel plainFill.

Definition sun : CelestialBody :=
  mkCelestialBody
    (mkOrbitalObject (mkOrbitalObjectModel STAR "sun") (mkVector3 0 0 0) 10) 10.

(** A flying ship with two tanks, 30 of 100 and 50 of 50, and a scoop that
    takes 5 a second, 15 away from the centre of a star of radius 10. *)
Definition wanderer : Spaceship :=
  {| name := "Wanderer";
     boundingExtent := mkVector3 4 2 8;
     mainEngineThrottle := 0;
     closestWalkableObject := None;
     landingTarget := None;
     state := FLYING;
     nearestOrbitalObject := None;
     nearestCelestialBody := Some sun;
     targetLandingPad := None;
     fuelTanks := [mkFuelTank 30 100; mkFuelTank 50 50];
     fuelScoop := Some (mkFuelScoop 5);
     isFuelScooping := false;
     motionType := DYNAMIC;
     filterCollideMask := 3;
     filterMembershipMask := 2;
     parent := None;
     absolutePosition := mkVector3 15 0 0;
     calls := [] |}.

Definition pad : LandingPad := mkLandingPad (mkTransformNode "pad 3") 1.

End ShipExamples.

(** ** The fuel scoop, frame after frame *)

Module FuelScooping.

Import Spaceships.

(** The two notifications of the scoop are level with its flag: the scoop
    started once more than it ended while the ship is scooping, and as
    often as it ended while it is not. *)
Definition scoopNotificationsLevel (ship : Spaceship) : Prop :=
  countNotifications onFuelScoopStart (calls ship)
  = (countNotifications onFuelScoopEnd (calls ship)
     + if isFuelScooping ship then 1 else 0)%nat.

(** Whether the nearest celestial body is one the scoop takes fuel from. *)
Definition canScoopFrom (body : CelestialBody) : bool :=
  existsb (OrbitalObjectType_eqb (type (model (orbitalObject body))))
    [STAR; GAS_PLANET].

(** The test of [handleFuelScoop] that stops the scoop: the tanks are full
    to within a hundredth, or the body is farther than 1.7 times its
    bounding radius.  With tanks of no capacity at all the quotient is not a
    number in JavaScript and 0 here, and the first test fails either
    way. *)
Definition fullOrTooFar (imports : Imports) (body : CelestialBody)
           (ship : Spaceship) : bool :=
  Qltb (Qabs (reduceSum getCurrentFuel (fuelTanks ship)
              / reduceSum getMaxFuel (fuelTanks ship) - 1)) 0.01
  || Qltb (getBoundingRadius (orbitalObject body) * 1.7)
          (Vector3_Distance imports (absolutePosition ship)
             (getAbsolutePosition (orbitalObject body))).

End FuelScooping.

(** ** More concrete ships *)

Module ScoopExamples.

Import Spaceships.

(** The ship of the examples with its tanks full and its scoop running. *)
Definition fullWanderer : Spaceship :=
  set_isFuelScooping true
    (set_fuelTanks [mkFuelTank 100 100; mkFuelTank 50 50] ShipExamples.wanderer).

(** The ship of the examples with no celestial body near. *)
Definition lonelyWanderer : Spaceship :=
  {| name := name ShipExamples.wanderer;
     boundingExtent := boundingExtent ShipExamples.wanderer;
     mainEngineThrottle := 0;
     closestWalkableObject := None;
     landingTarget := None;
     state := FLYING;
     nearestOrbitalObject := None;
     nearestCelestialBody := None;
     targetLandingPad := None;
     fuelTanks := fuelTanks ShipExamples.wanderer;
     fuelScoop := fuelScoop ShipExamples.wanderer;
     isFuelScooping := false;
     motionType := DYNAMIC;
     filterCollideMask := 3;
     filterMembershipMask := 2;
     parent := None;
     absolutePosition := absolutePosition ShipExamples.wanderer;
     calls := [] |}.

End ScoopExamples.

(* ================================================================== *)
(** * Part II: properties                                              *)
(* ================================================================== *)

(** ** Comparisons *)

Lemma Qltb_lt (a b : Q) : Qltb a b = true <-> (a < b)%Q.
Proof.
  unfold Qltb. rewrite Qlt_alt.
  destruct (a ?= b)%Q; split; intro H; try reflexivity; discriminate H.
Qed.

Lemma Qltb_ge (a b : Q) : Qltb a b = false <-> (b <= a)%Q.
Proof.
  rewrite <- not_true_iff_false, Qltb_lt. split.
  - apply Qnot_lt_le.
  - apply Qle_not_lt.
Qed.

Lemma starSystemCoordinatesEquals_eq (a b : StarSystemCoordinates) :
  starSystemCoordinatesEquals a b = true <-> a = b.
Proof.
  unfold starSystemCoordinatesEquals.
  rewrite !andb_true_iff, !Z.eqb_eq.
  destruct a, b; simpl. split.
  - intros [[[[[-> ->] ->] ->] ->] ->]. reflexivity.
  - intros H. injection H as -> -> -> -> -> ->. repeat split.
Qed.

Lemma starSystemCoordinatesEquals_neq (a b : StarSystemCoordinates) :
  starSystemCoordinatesEquals a b = false <-> a <> b.
Proof.
  rewrite <- not_true_iff_false, starSystemCoordinatesEquals_eq. reflexivity.
Qed.

Lemma localObjectPathEquals_eq (p q : LocalObjectPath) :
  localObjectPathEquals p q = true <-> p = q.
Proof.
  revert q. induction p as [|i p IH]; intros [|j q]; simpl;
    try (split; [discriminate | discriminate]); try tauto.
  rewrite andb_true_iff, Nat.eqb_eq, IH. split.
  - intros [-> ->]. reflexivity.
  - intros H. injection H as -> ->. split; reflexivity.
Qed.

Lemma universeObjectIdEquals_eq (a b : UniverseObjectId) :
  universeObjectIdEquals a b = true <-> a = b.
Proof.
  unfold universeObjectIdEquals.
  rewrite andb_true_iff, starSystemCoordinatesEquals_eq, localObjectPathEquals_eq.
  destruct a, b; simpl. split.
  - intros [-> ->]. reflexivity.
  - intros H. injection H as -> ->. split; reflexivity.
Qed.

Lemma FlyByState_eqb_eq (a b : FlyByState) :
  FlyByState_eqb a b = true <-> a = b.
Proof. destruct a, b; simpl; split; intro H; try reflexivity; discriminate H. Qed.

(** ** The fly-by node: how [updateState] ends, case by case *)

Ltac run_method :=
  unfold updateState, isCompleted, equals, getTargetSystems, serialize,
    describe, describeNextTask, setState, assignState,
    bind, read, ret, throw, assign, after, returned, throws;
  simpl.

Lemma withState_same (node : MissionFlyByNode) :
  withState (state node) node = node.
Proof. destruct node; reflexivity. Qed.

Lemma isCompleted_spec (node : MissionFlyByNode) :
  isCompleted node = (Normal (FlyByState_eqb (state node) CLOSE_ENOUGH), node).
Proof. reflexivity. Qed.

Lemma not_completed_eqb (node : MissionFlyByNode) :
  state node <> CLOSE_ENOUGH -> FlyByState_eqb (state node) CLOSE_ENOUGH = false.
Proof.
  intro H. apply not_true_iff_false. rewrite FlyByState_eqb_eq. exact H.
Qed.

Section UpdateStateCases.

Variable D : Vector3 -> Vector3 -> Q.
Variable context : MissionContext.
Variable node : MissionFlyByNode.

Let here := coordinates (systemModel (currentSystem context)).

Lemma updateState_completed :
  state node = CLOSE_ENOUGH ->
  updateState D context node = (Normal tt, node).
Proof.
  intro H. run_method. rewrite H. reflexivity.
Qed.

Lemma updateState_other_system :
  state node <> CLOSE_ENOUGH ->
  starSystemCoordinatesEquals here (targetSystemCoordinates node) = false ->
  updateState D context node = (Normal tt, withState NOT_IN_SYSTEM node).
Proof.
  intros Hs Hc. run_method. rewrite (not_completed_eqb _ Hs).
  fold here. rewrite Hc. reflexivity.
Qed.

Lemma updateState_unresolved :
  state node <> CLOSE_ENOUGH ->
  starSystemCoordinatesEquals here (targetSystemCoordinates node) = true ->
  getObjectBySystemId (objectId node) (currentSystem context) = None ->
  updateState D context node = (Throw (CouldNotFindObject (objectId node)), node).
Proof.
  intros Hs Hc Hr. run_method. rewrite (not_completed_eqb _ Hs).
  fold here. rewrite Hc. simpl. rewrite Hr. reflexivity.
Qed.

Lemma updateState_resolved (targetObject : OrbitalObject) :
  state node <> CLOSE_ENOUGH ->
  starSystemCoordinatesEquals here (targetSystemCoordinates node) = true ->
  getObjectBySystemId (objectId node) (currentSystem context) = Some targetObject ->
  updateState D context node =
  (Normal tt,
    withState
      (if Qltb (D (playerPosition context) (getAbsolutePosition targetObject))
               (getBoundingRadius targetObject
                * thresholdMultiplier (type (model targetObject)))
       then CLOSE_ENOUGH else TOO_FAR_IN_SYSTEM)
      node).
Proof.
  intros Hs Hc Hr. run_method. rewrite (not_completed_eqb _ Hs).
  fold here. rewrite Hc. simpl. rewrite Hr.
  destruct (Qltb _ _); reflexivity.
Qed.

(** Whatever the case, the readonly fields stay. *)
Lemma updateState_readonly :
  objectId (after (updateState D context node)) = objectId node
  /\ targetSystemCoordinates (after (updateState D context node))
     = targetSystemCoordinates node.
Proof.
  destruct (FlyByState_eqb (state node) CLOSE_ENOUGH) eqn:Hs.
  - apply FlyByState_eqb_eq in Hs. rewrite (updateState_completed Hs).
    split; reflexivity.
  - assert (Hs' : state node <> CLOSE_ENOUGH).
    { intro E. apply FlyByState_eqb_eq in E. congruence. }
    destruct (starSystemCoordinatesEquals here (targetSystemCoordinates node)) eqn:Hc.
    + destruct (getObjectBySystemId (objectId node) (currentSystem context)) eqn:Hr.
      * rewrite (updateState_resolved _ Hs' Hc Hr). split; reflexivity.
      * rewrite (updateState_unresolved Hs' Hc Hr). split; reflexivity.
    + rewrite (updateState_other_system Hs' Hc). split; reflexivity.
Qed.

End UpdateStateCases.

Lemma withState_withState (s s' : FlyByState) (node : MissionFlyByNode) :
  withState s (withState s' node) = withState s node.
Proof. reflexivity. Qed.

Lemma updateStateEach_completed (D : Vector3 -> Vector3 -> Q)
      (contexts : list MissionContext) (node : MissionFlyByNode) :
  state node = CLOSE_ENOUGH ->
  updateStateEach D contexts node = (Normal tt, node).
Proof.
  intro H. induction contexts as [|context later IH]; simpl.
  - reflexivity.
  - unfold bind. rewrite (updateState_completed D context node H). exact IH.
Qed.

(** ** Sticky completion *)

(** C1.  A node whose state is CLOSE_ENOUGH stays there: a run of
    [updateState] calls, one per context of any list of contexts (the player
    far away, another system, a system where the target is not loaded),
    returns normally every time and leaves the node as it was, so its state
    is still CLOSE_ENOUGH and [isCompleted] still answers true. *)
Theorem updateState_sticky_completion (D : Vector3 -> Vector3 -> Q)
        (node : MissionFlyByNode) (contexts : list MissionContext) :
  state node = CLOSE_ENOUGH ->
  (forall context, updateState D context node = (Normal tt, node))
  /\ updateStateEach D contexts node = (Normal tt, node)
  /\ state (after (updateStateEach D contexts node)) = CLOSE_ENOUGH
  /\ returned (isCompleted (after (updateStateEach D contexts node))) = Some true.
Proof.
  intro H. rewrite (updateStateEach_completed D contexts node H).
  split; [intro context; apply updateState_completed; exact H |].
  repeat split.
  - exact H.
  - unfold after, returned. simpl. rewrite H. reflexivity.
Qed.

Lemma updateState_sticky_completion_witness :
  state Examples.completedNode = CLOSE_ENOUGH
  /\ updateStateEach Examples.axisDistance
       [Examples.farAway; Examples.atDistance 1000; Examples.inHollowHome]
       Examples.completedNode
     = (Normal tt, Examples.completedNode).
Proof.
  split.
  - reflexivity.
  - destruct (updateState_sticky_completion Examples.axisDistance
                Examples.completedNode
                [Examples.farAway; Examples.atDistance 1000; Examples.inHollowHome])
      as (_ & Heach & _).
    + reflexivity.
    + exact Heach.
Defined.

(** ** The wrong system *)

(** C5 as stated fails on a completed node: in a system other
    than the target's, [updateState] leaves it at CLOSE_ENOUGH. *)
Lemma updateState_wrong_system_counterexample :
  coordinates (systemModel (currentSystem Examples.farAway))
    <> targetSystemCoordinates Examples.completedNode
  /\ state (after (updateState Examples.axisDistance Examples.farAway
                     Examples.completedNode)) = CLOSE_ENOUGH
  /\ state (after (updateState Examples.axisDistance Examples.farAway
                     Examples.completedNode)) <> NOT_IN_SYSTEM.
Proof.
  split; [discriminate | split; [reflexivity | discriminate]].
Qed.

(** C5, amended.  In a context whose current system coordinates differ from
    the node's target coordinates, [updateState] returns normally and sets
    the state of a node that is not yet completed to NOT_IN_SYSTEM, whatever
    the player position and the objects of the system; a completed node is
    left as it is. *)
Theorem updateState_wrong_system (D : Vector3 -> Vector3 -> Q)
        (context : MissionContext) (node : MissionFlyByNode) :
  coordinates (systemModel (currentSystem context)) <> targetSystemCoordinates node ->
  (state node <> CLOSE_ENOUGH ->
   updateState D context node = (Normal tt, withState NOT_IN_SYSTEM node)
   /\ state (after (updateState D context node)) = NOT_IN_SYSTEM)
  /\ (state node = CLOSE_ENOUGH ->
      updateState D context node = (Normal tt, node)).
Proof.
  intro Hc. apply starSystemCoordinatesEquals_neq in Hc. split.
  - intro Hs. rewrite (updateState_other_system D context node Hs Hc).
    split; reflexivity.
  - apply updateState_completed.
Qed.

Lemma updateState_wrong_system_witness :
  coordinates (systemModel (currentSystem Examples.farAway))
    <> targetSystemCoordinates Examples.freshNode
  /\ state (after (updateState Examples.axisDistance Examples.farAway
                     (withState TOO_FAR_IN_SYSTEM Examples.freshNode)))
     = NOT_IN_SYSTEM.
Proof.
  split.
  - discriminate.
  - apply (updateState_wrong_system Examples.axisDistance Examples.farAway
             (withState TOO_FAR_IN_SYSTEM Examples.freshNode)).
    + discriminate.
    + discriminate.
Defined.

(** ** The target that cannot be found *)

(** C7 as stated fails on a completed node: in the target
    system, with the target not to be found, [updateState] returns
    normally. *)
Lemma updateState_unresolved_counterexample :
  coordinates (systemModel (currentSystem Examples.inHollowHome))
    = targetSystemCoordinates Examples.completedNode
  /\ getObjectBySystemId (objectId Examples.completedNode)
       (currentSystem Examples.inHollowHome) = None
  /\ updateState Examples.axisDistance Examples.inHollowHome Examples.completedNode
     = (Normal tt, Examples.completedNode)
  /\ throws (updateState Examples.axisDistance Examples.inHollowHome
               Examples.completedNode) = false.
Proof. repeat split. Qed.

(** C7, amended.  For a node that is not yet completed, in a context whose
    current system coordinates are the node's target coordinates and where
    [getObjectBySystemId] finds no object, [updateState] throws the error
    that names the node's [objectId], before any assignment; and
    [updateState] throws in no other case: not on a completed node, not in
    another system, not when the target is found. *)
Theorem updateState_throws_iff_unresolved (D : Vector3 -> Vector3 -> Q)
        (context : MissionContext) (node : MissionFlyByNode) :
  (state node <> CLOSE_ENOUGH ->
   coordinates (systemModel (currentSystem context)) = targetSystemCoordinates node ->
   getObjectBySystemId (objectId node) (currentSystem context) = None ->
   updateState D context node = (Throw (CouldNotFindObject (objectId node)), node))
  /\ (throws (updateState D context node) = true ->
      state node <> CLOSE_ENOUGH
      /\ coordinates (systemModel (currentSystem context)) = targetSystemCoordinates node
      /\ getObjectBySystemId (objectId node) (currentSystem context) = None).
Proof.
  split.
  - intros Hs Hc Hr. apply starSystemCoordinatesEquals_eq in Hc.
    exact (updateState_unresolved D context node Hs Hc Hr).
  - destruct (FlyByState_eqb (state node) CLOSE_ENOUGH) eqn:Hs.
    + apply FlyByState_eqb_eq in Hs.
      rewrite (updateState_completed D context node Hs). discriminate.
    + assert (Hs' : state node <> CLOSE_ENOUGH).
      { intro E. apply FlyByState_eqb_eq in E. congruence. }
      destruct (starSystemCoordinatesEquals
                  (coordinates (systemModel (currentSystem context)))
                  (targetSystemCoordinates node)) eqn:Hc.
      * destruct (getObjectBySystemId (objectId node) (currentSystem context)) eqn:Hr.
        -- rewrite (updateState_resolved D context node o Hs' Hc Hr). discriminate.
        -- intros _. apply starSystemCoordinatesEquals_eq in Hc. auto.
      * rewrite (updateState_other_system D context node Hs' Hc). discriminate.
Qed.

Lemma updateState_throws_iff_unresolved_witness :
  state Examples.freshNode <> CLOSE_ENOUGH
  /\ updateState Examples.axisDistance Examples.inHollowHome Examples.freshNode
     = (Throw (CouldNotFindObject Examples.starId), Examples.freshNode).
Proof.
  split.
  - discriminate.
  - apply (updateState_throws_iff_unresolved Examples.axisDistance
             Examples.inHollowHome Examples.freshNode).
    + discriminate.
    + reflexivity.
    + reflexivity.
Defined.

(** ** Idempotence *)

(** C8.  With the context unchanged, a second [updateState] ends as the
    first did and leaves the node as the first left it: the same
    completion, the same state.  The call reads its context and assigns
    only to the node's [state]: the node's [objectId] and
    [targetSystemCoordinates] are as before. *)
Theorem updateState_idempotent (D : Vector3 -> Vector3 -> Q)
        (context : MissionContext) (node : MissionFlyByNode) :
  updateState D context (after (updateState D context node))
  = updateState D context node
  /\ after (updateState D context (after (updateState D context node)))
     = after (updateState D context node)
  /\ objectId (after (updateState D context node)) = objectId node
  /\ targetSystemCoordinates (after (updateState D context node))
     = targetSystemCoordinates node.
Proof.
  assert (Hidem : updateState D context (after (updateState D context node))
                  = updateState D context node).
  { destruct (FlyByState_eqb (state node) CLOSE_ENOUGH) eqn:Hs.
    - apply FlyByState_eqb_eq in Hs.
      rewrite (updateState_completed D context node Hs). unfold after. simpl.
      apply updateState_completed. exact Hs.
    - assert (Hs' : state node <> CLOSE_ENOUGH).
      { intro E. apply FlyByState_eqb_eq in E. congruence. }
      destruct (starSystemCoordinatesEquals
                  (coordinates (systemModel (currentSystem context)))
                  (targetSystemCoordinates node)) eqn:Hc.
      + destruct (getObjectBySystemId (objectId node) (currentSystem context)) eqn:Hr.
        * rewrite (updateState_resolved D context node o Hs' Hc Hr).
          unfold after. simpl.
          destruct (Qltb _ _) eqn:Hlt.
          -- apply updateState_completed. reflexivity.
          -- rewrite (updateState_resolved D context
                        (withState TOO_FAR_IN_SYSTEM node) o).
             ++ rewrite Hlt. reflexivity.
             ++ discriminate.
             ++ exact Hc.
             ++ exact Hr.
        * rewrite (updateState_unresolved D context node Hs' Hc Hr).
          unfold after. simpl.
          apply updateState_unresolved; assumption.
      + rewrite (updateState_other_system D context node Hs' Hc).
        unfold after. simpl.
        rewrite (updateState_other_system D context (withState NOT_IN_SYSTEM node)).
        * reflexivity.
        * discriminate.
        * exact Hc. }
  split; [exact Hidem |].
  split; [rewrite Hidem; reflexivity |].
  apply updateState_readonly.
Qed.

(** ** The proximity threshold *)

Lemma thresholdMultiplier_specMultiplier (t : OrbitalObjectType) :
  thresholdMultiplier t = specMultiplier t.
Proof. destruct t; reflexivity. Qed.

(** C2 as stated fails: around a star of bounding radius 1,
    in the star's system, a fresh node goes to CLOSE_ENOUGH at distance 2.9
    and to TOO_FAR_IN_SYSTEM at distance 3.1, the reverse of the statement. *)
Lemma updateState_star_threshold_counterexample :
  type (model Examples.star) = STAR
  /\ (getBoundingRadius Examples.star == 1)%Q
  /\ getObjectBySystemId (objectId Examples.freshNode)
       (currentSystem (Examples.atDistance 2.9)) = Some Examples.star
  /\ (Examples.axisDistance (playerPosition (Examples.atDistance 2.9))
        (getAbsolutePosition Examples.star) == 2.9 * 1)%Q
  /\ (Examples.axisDistance (playerPosition (Examples.atDistance 3.1))
        (getAbsolutePosition Examples.star) == 3.1 * 1)%Q
  /\ state (after (updateState Examples.axisDistance (Examples.atDistance 2.9)
                     Examples.freshNode)) = CLOSE_ENOUGH
  /\ state (after (updateState Examples.axisDistance (Examples.atDistance 2.9)
                     Examples.freshNode)) <> TOO_FAR_IN_SYSTEM
  /\ state (after (updateState Examples.axisDistance (Examples.atDistance 3.1)
                     Examples.freshNode)) = TOO_FAR_IN_SYSTEM
  /\ state (after (updateState Examples.axisDistance (Examples.atDistance 3.1)
                     Examples.freshNode)) <> CLOSE_ENOUGH.
Proof.
  repeat split; try reflexivity; discriminate.
Qed.

(** C2, amended.  For a node that is not yet completed, in the target's
    system, with the target found, of type STAR and of bounding radius
    [R > 0]: at distance 2.9 R the state becomes CLOSE_ENOUGH and at
    distance 3.1 R it becomes TOO_FAR_IN_SYSTEM.  The boundary is at 3 R:
    the state becomes CLOSE_ENOUGH exactly when the distance is below 3 R,
    and TOO_FAR_IN_SYSTEM exactly when it is 3 R or more. *)
Theorem updateState_star_threshold (D : Vector3 -> Vector3 -> Q)
        (context : MissionContext) (node : MissionFlyByNode)
        (targetObject : OrbitalObject) (R : Q) :
  state node <> CLOSE_ENOUGH ->
  coordinates (systemModel (currentSystem context)) = targetSystemCoordinates node ->
  getObjectBySystemId (objectId node) (currentSystem context) = Some targetObject ->
  type (model targetObject) = STAR ->
  (getBoundingRadius targetObject == R)%Q ->
  (0 < R)%Q ->
  let distance := D (playerPosition context) (getAbsolutePosition targetObject) in
  let state' := state (after (updateState D context node)) in
  ((distance == 2.9 * R)%Q -> state' = CLOSE_ENOUGH)
  /\ ((distance == 3.1 * R)%Q -> state' = TOO_FAR_IN_SYSTEM)
  /\ ((distance < 3 * R)%Q <-> state' = CLOSE_ENOUGH)
  /\ ((3 * R <= distance)%Q <-> state' = TOO_FAR_IN_SYSTEM).
Proof.
  intros Hs Hc Hr Ht HR Hpos distance state'.
  apply starSystemCoordinatesEquals_eq in Hc.
  assert (Hstate : state' =
                   if Qltb distance (getBoundingRadius targetObject * 3)
                   then CLOSE_ENOUGH else TOO_FAR_IN_SYSTEM).
  { unfold state'. rewrite (updateState_resolved D context node targetObject Hs Hc Hr).
    rewrite Ht. unfold after. simpl. fold distance.
    destruct (Qltb _ _); reflexivity. }
  rewrite Hstate.
  destruct (Qltb distance (getBoundingRadius targetObject * 3)) eqn:Hlt.
  - apply Qltb_lt in Hlt. repeat split; intros; try reflexivity; try discriminate; lra.
  - apply Qltb_ge in Hlt. repeat split; intros; try reflexivity; try discriminate; lra.
Qed.

Lemma updateState_star_threshold_witness :
  (0 < 1)%Q
  /\ state (after (updateState Examples.axisDistance (Examples.atDistance 2.9)
                     Examples.freshNode)) = CLOSE_ENOUGH.
Proof.
  split.
  - reflexivity.
  - apply (updateState_star_threshold Examples.axisDistance
             (Examples.atDistance 2.9) Examples.freshNode Examples.star 1).
    + discriminate.
    + reflexivity.
    + reflexivity.
    + reflexivity.
    + reflexivity.
    + reflexivity.
    + reflexivity.
Defined.

(** C3.  The switch of [updateState] is the lookup table of the spec: 3 for
    STAR, TELLURIC_PLANET, TELLURIC_SATELLITE, GAS_PLANET, MANDELBULB,
    JULIA_SET, SPACE_STATION and SPACE_ELEVATOR, 50 for NEUTRON_STAR, 10 for
    BLACK_HOLE and 1 for any other type; and whenever [updateState] gets to
    compare the distance (node not yet completed, target system, target
    found) the threshold it compares with is the target's bounding radius
    times the table's entry for the target's type, the state becoming
    CLOSE_ENOUGH below the threshold and TOO_FAR_IN_SYSTEM otherwise. *)
Theorem updateState_threshold_lookup (D : Vector3 -> Vector3 -> Q) :
  (forall t, thresholdMultiplier t = specMultiplier t)
  /\ (forall t,
        In t [STAR; TELLURIC_PLANET; TELLURIC_SATELLITE; GAS_PLANET;
              MANDELBULB; JULIA_SET; SPACE_STATION; SPACE_ELEVATOR] ->
        thresholdMultiplier t = 3%Q)
  /\ thresholdMultiplier NEUTRON_STAR = 50%Q
  /\ thresholdMultiplier BLACK_HOLE = 10%Q
  /\ (forall t,
        ~ In t [STAR; TELLURIC_PLANET; TELLURIC_SATELLITE; GAS_PLANET;
                MANDELBULB; JULIA_SET; SPACE_STATION; SPACE_ELEVATOR;
                NEUTRON_STAR; BLACK_HOLE] ->
        thresholdMultiplier t = 1%Q)
  /\ (forall context node targetObject,
        state node <> CLOSE_ENOUGH ->
        coordinates (systemModel (currentSystem context)) = targetSystemCoordinates node ->
        getObjectBySystemId (objectId node) (currentSystem context) = Some targetObject ->
        updateState D context node
        = (Normal tt,
            withState
              (if Qltb (D (playerPosition context) (getAbsolutePosition targetObject))
                       (getBoundingRadius targetObject
                        * specMultiplier (type (model targetObject)))
               then CLOSE_ENOUGH else TOO_FAR_IN_SYSTEM)
              node)).
Proof.
  split; [exact thresholdMultiplier_specMultiplier |].
  split.
  { intros t Ht. simpl in Ht.
    repeat (destruct Ht as [<- | Ht]; [reflexivity |]). contradiction. }
  split; [reflexivity |].
  split; [reflexivity |].
  split.
  { intros t Ht. destruct t; try reflexivity; exfalso; apply Ht; simpl; tauto. }
  intros context node targetObject Hs Hc Hr.
  apply starSystemCoordinatesEquals_eq in Hc.
  rewrite <- thresholdMultiplier_specMultiplier.
  exact (updateState_resolved D context node targetObject Hs Hc Hr).
Qed.

Lemma updateState_threshold_lookup_witness :
  thresholdMultiplier TELLURIC_PLANET = 3%Q
  /\ thresholdMultiplier (OTHER_OBJECT_TYPE 7) = 1%Q.
Proof.
  split.
  - apply (updateState_threshold_lookup Examples.axisDistance). simpl. tauto.
  - apply (updateState_threshold_lookup Examples.axisDistance). simpl.
    intros [H|[H|[H|[H|[H|[H|[H|[H|[H|[H|H]]]]]]]]]]; try discriminate H; exact H.
Defined.

(** ** Serialization *)

Lemma serialize_spec (node : MissionFlyByNode) :
  serialize node
  = (Normal (mkMissionFlyByNodeSerialized FLY_BY [] (objectId node) (state node)), node).
Proof. reflexivity. Qed.

Lemma deserialize_spec (m : MissionFlyByNodeSerialized) :
  deserialize m
  = mkMissionFlyByNode (ser_state m) (ser_objectId m)
      (starSystemCoordinates (ser_objectId m)).
Proof. reflexivity. Qed.

(** C4.  Serialization round-trips, partial progress included.  The
    records of FlyBy shape are the records [serialize] writes, those of
    type FLY_BY without children, whatever their [objectId] and [state].
    For every such record [m], deserializing [m] and serializing the node
    again gives [m] back: type, children, [objectId] and [state].  For every
    record [m], serializing the deserialized node returns a record of type
    FLY_BY without children that has the [objectId] and the [state] of [m],
    and deserializing that record gives the node [m] gave, so that
    deserialize (serialize (deserialize m)) is deserialize m.  And a node
    whose target coordinates are those of its [objectId] is the node its
    own record deserializes to. *)
Theorem serialize_deserialize_roundtrip (m : MissionFlyByNodeSerialized) :
  ((exists node, serialize node = (Normal m, node))
   <-> ser_type m = FLY_BY /\ ser_children m = [])
  /\ ((exists node, serialize node = (Normal m, node)) ->
      serialize (deserialize m) = (Normal m, deserialize m))
  /\ (ser_type m = FLY_BY -> ser_children m = [] ->
      serialize (deserialize m) = (Normal m, deserialize m))
  /\ (exists m',
        serialize (deserialize m) = (Normal m', deserialize m)
        /\ ser_type m' = FLY_BY
        /\ ser_children m' = []
        /\ ser_objectId m' = ser_objectId m
        /\ ser_state m' = ser_state m
        /\ deserialize m' = deserialize m)
  /\ (forall node,
        targetSystemCoordinates node = starSystemCoordinates (objectId node) ->
        exists r, serialize node = (Normal r, node) /\ deserialize r = node).
Proof.
  assert (Hshape : ser_type m = FLY_BY -> ser_children m = [] ->
                   serialize (deserialize m) = (Normal m, deserialize m)).
  { intros Ht Hc. rewrite serialize_spec, deserialize_spec. simpl.
    destruct m as [t c i s]. simpl in Ht, Hc. subst. reflexivity. }
  assert (Hwritten : (exists node, serialize node = (Normal m, node))
                     <-> ser_type m = FLY_BY /\ ser_children m = []).
  { split.
    - intros [node Hnode]. rewrite serialize_spec in Hnode.
      injection Hnode as <-. split; reflexivity.
    - intros [Ht Hc]. exists (deserialize m). apply Hshape; assumption. }
  split; [exact Hwritten |].
  split; [intro H; apply Hwritten in H; destruct H; apply Hshape; assumption |].
  split; [exact Hshape |].
  split.
  - eexists. split; [apply serialize_spec |].
    repeat split.
  - intros node Hn. eexists. split; [apply serialize_spec |].
    rewrite deserialize_spec. simpl. rewrite <- Hn. destruct node; reflexivity.
Qed.

Lemma serialize_deserialize_roundtrip_witness :
  (exists node, serialize node = (Normal Examples.recordInProgress, node))
  /\ serialize (deserialize Examples.recordInProgress)
     = (Normal Examples.recordInProgress, deserialize Examples.recordInProgress).
Proof.
  assert (Hwritten : exists node,
             serialize node = (Normal Examples.recordInProgress, node)).
  { exists (withState TOO_FAR_IN_SYSTEM Examples.freshNode). reflexivity. }
  split; [exact Hwritten |].
  destruct (serialize_deserialize_roundtrip Examples.recordInProgress)
    as (_ & Hround & _).
  apply Hround. exact Hwritten.
Defined.

(** ** Equality of nodes *)

Lemma universeObjectIdEquals_refl (id : UniverseObjectId) :
  universeObjectIdEquals id id = true.
Proof. apply universeObjectIdEquals_eq. reflexivity. Qed.

Lemma universeObjectIdEquals_neq (a b : UniverseObjectId) :
  a <> b -> universeObjectIdEquals a b = false.
Proof.
  intro H. apply not_true_iff_false. rewrite universeObjectIdEquals_eq. exact H.
Qed.

(** C9.  [equals] is reflexive, whatever the state of either copy of the
    node; two fly-by nodes with different [objectId]s are not equal, in
    particular when the identifiers have the same star system coordinates
    and different local object paths; and a node of another class is never
    equal to a fly-by node.  [equals] answers true exactly when the other
    node is a fly-by node with the same [objectId]; it never throws and
    leaves the node as it is. *)
Theorem equals_reflexive_and_separating (node other : MissionFlyByNode)
        (s : FlyByState) (tag : nat) :
  equals (FlyByNode node) node = (Normal true, node)
  /\ equals (FlyByNode (withState s node)) node = (Normal true, node)
  /\ (objectId node <> objectId other ->
      equals (FlyByNode other) node = (Normal false, node))
  /\ (starSystemCoordinates (objectId node) = starSystemCoordinates (objectId other) ->
      localObjectPath (objectId node) <> localObjectPath (objectId other) ->
      equals (FlyByNode other) node = (Normal false, node))
  /\ equals (OtherMissionNode tag) node = (Normal false, node)
  /\ (returned (equals (FlyByNode other) node) = Some true
      <-> objectId node = objectId other).
Proof.
  assert (Hneq : objectId node <> objectId other ->
                 equals (FlyByNode other) node = (Normal false, node)).
  { intro H. run_method. rewrite (universeObjectIdEquals_neq _ _ H). reflexivity. }
  split; [run_method; rewrite universeObjectIdEquals_refl; reflexivity |].
  split; [run_method; rewrite universeObjectIdEquals_refl; reflexivity |].
  split; [exact Hneq |].
  split; [intros _ Hp; apply Hneq; congruence |].
  split; [reflexivity |].
  run_method. rewrite <- universeObjectIdEquals_eq.
  destruct (universeObjectIdEquals _ _); split; congruence.
Qed.

Lemma equals_reflexive_and_separating_witness :
  objectId (new_MissionFlyByNode Examples.starId)
    <> objectId (new_MissionFlyByNode Examples.planetId)
  /\ starSystemCoordinates Examples.starId = starSystemCoordinates Examples.planetId
  /\ equals (FlyByNode (new_MissionFlyByNode Examples.planetId))
            (new_MissionFlyByNode Examples.starId)
     = (Normal false, new_MissionFlyByNode Examples.starId).
Proof.
  split; [discriminate | split; [reflexivity |]].
  destruct (equals_reflexive_and_separating
              (new_MissionFlyByNode Examples.starId)
              (new_MissionFlyByNode Examples.planetId) NOT_IN_SYSTEM 0)
    as (_ & _ & _ & Hpath & _).
  apply Hpath.
  - reflexivity.
  - discriminate.
Defined.

(** ** What a call may change *)

Lemma updateState_only_state (D : Vector3 -> Vector3 -> Q)
      (context : MissionContext) (node : MissionFlyByNode) :
  after (updateState D context node)
  = withState (state (after (updateState D context node))) node.
Proof.
  destruct (updateState_readonly D context node) as [Hid Htarget].
  destruct (after (updateState D context node)) as [s i t].
  simpl in *. subst. destruct node; reflexivity.
Qed.

Section CallFrame.

Variable Vector3_Distance : Vector3 -> Vector3 -> Q.
Variable getStarGalacticPosition : StarSystemCoordinates -> Vector3.
Variable getObjectModelByUniverseId : UniverseObjectId -> OrbitalObjectModel.
Variable getSystemModelFromCoordinates : StarSystemCoordinates -> StarSystemModel.
Variable getOrbitalObjectTypeToI18nString : OrbitalObjectModel -> string.
Variable parseDistance : Q -> string.
Variable LIGHT_YEAR : Q.
Variable i18n_t : string -> list (string * string) -> string.
Variable getGoToSystemInstructions :
  MissionContext -> StarSystemCoordinates -> KeyboardLayout -> string.

Let afterCall' :=
  afterCall Vector3_Distance getStarGalacticPosition getObjectModelByUniverseId
    getSystemModelFromCoordinates getOrbitalObjectTypeToI18nString parseDistance
    LIGHT_YEAR i18n_t getGoToSystemInstructions.

Let afterCalls' :=
  afterCalls Vector3_Distance getStarGalacticPosition getObjectModelByUniverseId
    getSystemModelFromCoordinates getOrbitalObjectTypeToI18nString parseDistance
    LIGHT_YEAR i18n_t getGoToSystemInstructions.

Lemma afterCall_frame (c : Call) (node : MissionFlyByNode) :
  afterCall' c node
  = if modifiesState c then withState (state (afterCall' c node)) node else node.
Proof.
  destruct c; simpl.
  - reflexivity.
  - apply updateState_only_state.
  - reflexivity.
  - destruct other; reflexivity.
  - reflexivity.
  - destruct node as [s i t]. destruct s; reflexivity.
  - reflexivity.
  - reflexivity.
Qed.

Lemma afterCall_readonly (c : Call) (node : MissionFlyByNode) :
  objectId (afterCall' c node) = objectId node
  /\ targetSystemCoordinates (afterCall' c node) = targetSystemCoordinates node.
Proof.
  rewrite afterCall_frame. destruct (modifiesState c); split; reflexivity.
Qed.

Lemma afterCalls_readonly (history : list Call) (node : MissionFlyByNode) :
  objectId (afterCalls' history node) = objectId node
  /\ targetSystemCoordinates (afterCalls' history node) = targetSystemCoordinates node.
Proof.
  revert node. induction history as [|c history IH]; intro node.
  - split; reflexivity.
  - unfold afterCalls', afterCalls. simpl.
    destruct (IH (afterCall' c node)) as [Hid Htarget].
    destruct (afterCall_readonly c node) as [Hid' Htarget'].
    unfold afterCalls', afterCalls in Hid, Htarget.
    unfold afterCall' in *.
    rewrite Hid, Htarget, Hid', Htarget'. split; reflexivity.
Qed.

(** C10.  A freshly constructed node is in state NOT_IN_SYSTEM, is not
    completed and serializes with an empty list of children.  After any
    history of calls on it (any methods, in any order, with any
    arguments), its [objectId] is the one it was constructed with, its
    [targetSystemCoordinates] are the star system coordinates of that
    [objectId], [getTargetSystems] returns the one-element list of those
    coordinates, and it serializes with an empty list of children.  A
    further call of [isCompleted], [equals], [describe],
    [describeNextTask], [getTargetSystems] or [serialize] leaves the node
    as it is, and a further call of [setState] or [updateState] changes
    at most the [state] field. *)
Theorem flyBy_node_frame (id : UniverseObjectId) (history : list Call) (c : Call) :
  let fresh := new_MissionFlyByNode id in
  let node := afterCalls' history fresh in
  state fresh = NOT_IN_SYSTEM
  /\ isCompleted fresh = (Normal false, fresh)
  /\ serialize fresh
     = (Normal (mkMissionFlyByNodeSerialized FLY_BY [] id NOT_IN_SYSTEM), fresh)
  /\ objectId node = id
  /\ targetSystemCoordinates node = starSystemCoordinates (objectId node)
  /\ getTargetSystems node = (Normal [starSystemCoordinates id], node)
  /\ (exists m, serialize node = (Normal m, node) /\ ser_children m = [])
  /\ afterCall' c node
     = (if modifiesState c then withState (state (afterCall' c node)) node else node)
  /\ objectId (afterCall' c node) = id
  /\ targetSystemCoordinates (afterCall' c node) = starSystemCoordinates id.
Proof.
  intros fresh node.
  destruct (afterCalls_readonly history fresh) as [Hid Htarget].
  fold node in Hid, Htarget. simpl in Hid, Htarget.
  destruct (afterCall_readonly c node) as [Hid' Htarget'].
  repeat split.
  - exact Hid.
  - rewrite Htarget, Hid. reflexivity.
  - run_method. rewrite Htarget. reflexivity.
  - eexists. split; [apply serialize_spec | reflexivity].
  - apply afterCall_frame.
  - rewrite Hid'. exact Hid.
  - rewrite Htarget'. exact Htarget.
Qed.

End CallFrame.

(** ** The contact stations *)

Lemma keepProbability_denominator_pos (d : Q) : (0 < 1 + 0.02 * (d * d))%Q.
Proof. nra. Qed.

Lemma keepProbability_range (d : Q) :
  (0 < keepProbability d)%Q /\ (keepProbability d <= 1)%Q.
Proof.
  pose proof (keepProbability_denominator_pos d) as Hpos.
  unfold keepProbability. split.
  - apply Qlt_shift_div_l; [exact Hpos | lra].
  - apply Qle_shift_div_r; [exact Hpos | nra].
Qed.

Lemma keepProbability_antitone (d1 d2 : Q) :
  (0 <= d1)%Q -> (d1 <= d2)%Q -> (keepProbability d2 <= keepProbability d1)%Q.
Proof.
  intros H0 H12.
  pose proof (keepProbability_denominator_pos d1) as Hpos1.
  pose proof (keepProbability_denominator_pos d2) as Hpos2.
  unfold keepProbability.
  apply Qle_shift_div_r; [exact Hpos2 |].
  set (A := (1 + 0.02 * (d1 * d1))%Q) in *.
  set (B := (1 + 0.02 * (d2 * d2))%Q) in *.
  assert (HAB : (A <= B)%Q) by (unfold A, B; nra).
  assert (Hq : (0 < 1 / A)%Q) by (apply Qlt_shift_div_l; [exact Hpos1 | lra]).
  assert (HqA : (1 / A * A == 1)%Q).
  { unfold Qdiv. rewrite Qmult_1_l, Qmult_comm. apply Qmult_inv_r. lra. }
  nra.
Qed.

Lemma Array_filter_from_In {A : Type} (callback : A -> nat -> bool)
      (array : list A) (start : nat) (a : A) :
  In a (Array_filter_from callback start array)
  <-> exists index, nth_error array index = Some a
                    /\ callback a (start + index)%nat = true.
Proof.
  revert start. induction array as [|element rest IH]; intro start; simpl.
  - split; [contradiction | intros [[|i] [H _]]; discriminate H].
  - assert (Hrest : In a (Array_filter_from callback (S start) rest)
                    <-> exists index, nth_error rest index = Some a
                                      /\ callback a (start + S index)%nat = true).
    { rewrite IH. split; intros [i [Hn Hc]]; exists i; split; try exact Hn.
      - rewrite Nat.add_succ_r. exact Hc.
      - rewrite Nat.add_succ_r in Hc. exact Hc. }
    destruct (callback element start) eqn:Hcall.
    + simpl. rewrite Hrest. split.
      * intros [-> | [i Hi]].
        -- exists 0%nat. rewrite Nat.add_0_r. split; [reflexivity | exact Hcall].
        -- exists (S i). exact Hi.
      * intros [[|i] [Hn Hc]].
        -- left. simpl in Hn. congruence.
        -- right. exists i. split; assumption.
    + rewrite Hrest. split.
      * intros [i Hi]. exists (S i). exact Hi.
      * intros [[|i] [Hn Hc]].
        -- simpl in Hn. injection Hn as ->. rewrite Nat.add_0_r in Hc. congruence.
        -- exists i. split; assumption.
Qed.

Lemma Array_filter_In {A : Type} (callback : A -> nat -> bool)
      (array : list A) (a : A) :
  In a (Array_filter callback array)
  <-> exists index, nth_error array index = Some a /\ callback a index = true.
Proof. apply (Array_filter_from_In callback array 0 a). Qed.

Lemma Array_sort_insert_Permutation {A : Type} (compareFn : A -> A -> Q)
      (a : A) (sorted : list A) :
  Permutation (Array_sort_insert compareFn a sorted) (a :: sorted).
Proof.
  induction sorted as [|b rest IH]; simpl.
  - apply Permutation_refl.
  - destruct (Qle_bool (compareFn a b) 0).
    + apply Permutation_refl.
    + apply perm_trans with (b :: a :: rest).
      * apply perm_skip. exact IH.
      * apply perm_swap.
Qed.

Lemma Array_sort_Permutation {A : Type} (compareFn : A -> A -> Q)
      (array : list A) :
  Permutation (Array_sort compareFn array) array.
Proof.
  induction array as [|a rest IH]; simpl.
  - apply perm_nil.
  - apply perm_trans with (a :: Array_sort compareFn rest).
    + apply Array_sort_insert_Permutation.
    + apply perm_skip. exact IH.
Qed.

Lemma Array_sort_insert_byDistance_sorted (a : OrbitalFacilityModel * Q)
      (sorted : list (OrbitalFacilityModel * Q)) :
  StronglySorted nearerOrAsFar sorted ->
  StronglySorted nearerOrAsFar (Array_sort_insert byDistance a sorted).
Proof.
  induction 1 as [|b rest Hrest IH Hb]; simpl.
  - constructor; constructor.
  - destruct (Qle_bool (byDistance a b) 0) eqn:Hcmp.
    + apply Qle_bool_iff in Hcmp. unfold byDistance in Hcmp.
      assert (Hab : nearerOrAsFar a b) by (unfold nearerOrAsFar; lra).
      constructor.
      * constructor; assumption.
      * constructor; [exact Hab |].
        revert Hb. apply Forall_impl. unfold nearerOrAsFar in *. intros c Hc. lra.
    + assert (Hba : nearerOrAsFar b a).
      { unfold nearerOrAsFar. apply Qlt_le_weak. apply Qnot_le_lt.
        intro Hle. assert (Hc : Qle_bool (byDistance a b) 0 = true).
        { apply Qle_bool_iff. unfold byDistance. lra. }
        congruence. }
      constructor; [exact IH |].
      apply Forall_forall. intros c Hc.
      apply (Permutation_in _ (Array_sort_insert_Permutation byDistance a rest)) in Hc.
      destruct Hc as [<- | Hc]; [exact Hba |].
      rewrite Forall_forall in Hb. apply Hb. exact Hc.
Qed.

Lemma Array_sort_byDistance_sorted (array : list (OrbitalFacilityModel * Q)) :
  StronglySorted nearerOrAsFar (Array_sort byDistance array).
Proof.
  induction array as [|a rest IH]; simpl.
  - constructor.
  - apply Array_sort_insert_byDistance_sorted. exact IH.
Qed.

Section ContactStationsFacts.

Variable Rng : Type.
Variable getRngFromSeed : Z -> Rng.
Variable uniformRandBool : Q -> Rng -> nat -> bool.
Variable getNeighborStarSystemCoordinates :
  StarSystemCoordinates -> Q -> list (StarSystemCoordinates * Vector3 * Q).
Variable getSystemModelFromCoordinates : StarSystemCoordinates -> StarSystemModel.
Variable GetSpaceStations : StarSystemModel -> list OrbitalFacilityModel.

Let candidatesOf :=
  neighborSpaceStations getNeighborStarSystemCoordinates
    getSystemModelFromCoordinates GetSpaceStations.

Let contactStations' :=
  contactStations Rng getRngFromSeed uniformRandBool
    getNeighborStarSystemCoordinates getSystemModelFromCoordinates GetSpaceStations.

Lemma contactStations_Permutation (stationModel : OrbitalFacilityModel) :
  Permutation
    (contactStations' stationModel)
    (filter (sameFaction stationModel)
       (Array_filter
          (pruneByDistance Rng uniformRandBool (getRngFromSeed (seed stationModel)))
          (candidatesOf stationModel))).
Proof. apply Array_sort_Permutation. Qed.

Lemma contactStations_In (stationModel : OrbitalFacilityModel)
      (c : OrbitalFacilityModel * Q) :
  In c (contactStations' stationModel)
  <-> exists index,
        nth_error (candidatesOf stationModel) index = Some c
        /\ uniformRandBool (1 / (1 + 0.02 * (snd c * snd c)))
             (getRngFromSeed (seed stationModel)) (325 + index) = true
        /\ faction (fst c) = faction stationModel.
Proof.
  pose proof (contactStations_Permutation stationModel) as Hperm.
  assert (Hin : In c (contactStations' stationModel)
                <-> In c (filter (sameFaction stationModel)
                            (Array_filter
                               (pruneByDistance Rng uniformRandBool
                                  (getRngFromSeed (seed stationModel)))
                               (candidatesOf stationModel)))).
  { split; apply Permutation_in; [exact Hperm | apply Permutation_sym; exact Hperm]. }
  rewrite Hin, filter_In, Array_filter_In.
  unfold sameFaction, pruneByDistance, keepProbability.
  rewrite Nat.eqb_eq. split.
  - intros [[index [Hn Hdraw]] Hf]. exists index. auto.
  - intros [index [Hn [Hdraw Hf]]]. split; [exists index; auto | exact Hf].
Qed.

(** C6.  The contact stations of a station, from the stations of its
    neighbor systems taken in order, each with the distance of its system:
    - the candidate at a given index and at distance [d] is in the list
      exactly when the draw [uniformRandBool] made with probability
      [1 / (1 + 0.02 d^2)], the generator of the station's seed and the
      step 325 + index is true, and the candidate's faction is the
      station's;
    - that probability lies in (0, 1] and does not grow with the
      distance: of two distances [0 <= d1 <= d2], the nearer has at least
      the probability of the farther;
    - every station of the list has the faction of the offering station;
    - the list ascends by distance, and holds the stations that passed
      both filters, each as often as it passed;
    - a station model with the same seed, faction and coordinates gets
      the same list. *)
Theorem contactStations_filtered_and_sorted (stationModel : OrbitalFacilityModel) :
  let rng := getRngFromSeed (seed stationModel) in
  let candidates := candidatesOf stationModel in
  let result := contactStations' stationModel in
  (forall c,
      In c result
      <-> exists index,
            nth_error candidates index = Some c
            /\ uniformRandBool (1 / (1 + 0.02 * (snd c * snd c))) rng (325 + index)
               = true
            /\ faction (fst c) = faction stationModel)
  /\ (forall d, (0 < keepProbability d)%Q /\ (keepProbability d <= 1)%Q)
  /\ (forall d1 d2,
        (0 <= d1)%Q -> (d1 <= d2)%Q ->
        (keepProbability d2 <= keepProbability d1)%Q)
  /\ Forall (fun c => faction (fst c) = faction stationModel) result
  /\ StronglySorted nearerOrAsFar result
  /\ Permutation result
       (filter (sameFaction stationModel)
          (Array_filter (pruneByDistance Rng uniformRandBool rng) candidates))
  /\ (forall other,
        seed other = seed stationModel ->
        faction other = faction stationModel ->
        facilityCoordinates other = facilityCoordinates stationModel ->
        contactStations' other = result).
Proof.
  intros rng candidates result.
  split; [intro c; apply contactStations_In |].
  split; [exact keepProbability_range |].
  split; [exact keepProbability_antitone |].
  split.
  { apply Forall_forall. intros c Hc.
    apply contactStations_In in Hc. destruct Hc as [_ [_ [_ Hf]]]. exact Hf. }
  split; [apply Array_sort_byDistance_sorted |].
  split; [apply contactStations_Permutation |].
  intros other Hseed Hfaction Hcoords.
  unfold result, contactStations', contactStations, contactStationsOf,
    neighborSpaceStations, sameFaction.
  rewrite Hseed, Hfaction, Hcoords. reflexivity.
Qed.

End ContactStationsFacts.

Example contactStations_example :
  contactStations (nat -> Q) Examples.quarterRng Examples.thresholdDraw
    Examples.neighborsOfHome Examples.modelAt Examples.stationsOf Examples.offering
  = [ (Examples.harbour, 2%Q); (Examples.outpost, 5%Q) ].
Proof. vm_compute. reflexivity. Qed.

Lemma contactStations_filtered_and_sorted_witness :
  (0 <= 2)%Q /\ (2 <= 5)%Q /\ (keepProbability 5 <= keepProbability 2)%Q.
Proof.
  split; [lra | split; [lra |]].
  destruct (contactStations_filtered_and_sorted (nat -> Q) Examples.quarterRng
              Examples.thresholdDraw Examples.neighborsOfHome Examples.modelAt
              Examples.stationsOf Examples.offering)
    as (_ & _ & Hantitone & _).
  apply Hantitone; lra.
Defined.

(* ================================================================== *)
(** * Part III: further properties of the modelled code                *)
(* ================================================================== *)

(** ** The fly-by node: when a node completes *)

(** X1.  After [updateState] the node is completed exactly when it was
    completed before the call, or the current system is the target system,
    the target is found there and the player is nearer to it than its
    bounding radius times the multiplier of its type.  No other context
    completes a node. *)
Theorem updateState_completes_iff (D : Vector3 -> Vector3 -> Q)
        (context : MissionContext) (node : MissionFlyByNode) :
  state (after (updateState D context node)) = CLOSE_ENOUGH
  <-> state node = CLOSE_ENOUGH
      \/ (coordinates (systemModel (currentSystem context))
          = targetSystemCoordinates node
          /\ exists targetObject,
               getObjectBySystemId (objectId node) (currentSystem context)
               = Some targetObject
               /\ (D (playerPosition context) (getAbsolutePosition targetObject)
                   < getBoundingRadius targetObject
                     * thresholdMultiplier (type (model targetObject)))%Q).
Proof.
  destruct (FlyByState_eqb (state node) CLOSE_ENOUGH) eqn:Hs.
  - apply FlyByState_eqb_eq in Hs.
    rewrite (updateState_completed D context node Hs). unfold after. simpl.
    split; [intros _; left; exact Hs | intros _; exact Hs].
  - assert (Hs' : state node <> CLOSE_ENOUGH).
    { intro E. apply FlyByState_eqb_eq in E. congruence. }
    destruct (starSystemCoordinatesEquals
                (coordinates (systemModel (currentSystem context)))
                (targetSystemCoordinates node)) eqn:Hc.
    + pose proof Hc as Hc'. apply starSystemCoordinatesEquals_eq in Hc'.
      destruct (getObjectBySystemId (objectId node) (currentSystem context)) eqn:Hr.
      * rewrite (updateState_resolved D context node o Hs' Hc Hr).
        unfold after. simpl.
        destruct (Qltb _ _) eqn:Hlt; simpl.
        -- apply Qltb_lt in Hlt. split; [intros _ | reflexivity].
           right. split; [exact Hc' |]. exists o. split; [reflexivity | exact Hlt].
        -- apply Qltb_ge in Hlt. split; [discriminate |].
           intros [H | [_ [t [Ht Hd]]]]; [contradiction |].
           injection Ht as <-. exfalso. apply (Qlt_not_le _ _ Hd). exact Hlt.
      * rewrite (updateState_unresolved D context node Hs' Hc Hr).
        unfold after. simpl. split; [intro H; contradiction |].
        intros [H | [_ [t [Ht _]]]]; [contradiction | discriminate Ht].
    + rewrite (updateState_other_system D context node Hs' Hc).
      unfold after. simpl. split; [discriminate |].
      intros [H | [Heq _]]; [contradiction |].
      apply starSystemCoordinatesEquals_eq in Heq. congruence.
Qed.

Lemma updateState_completes_iff_witness :
  state (after (updateState Examples.axisDistance (Examples.atDistance 2)
                  Examples.freshNode)) = CLOSE_ENOUGH.
Proof.
  apply (updateState_completes_iff Examples.axisDistance (Examples.atDistance 2)
           Examples.freshNode).
  right. split; [reflexivity |].
  exists Examples.star. split; reflexivity.
Defined.

(** X2.  For a node that is not completed, what [updateState] does depends
    on the context and not on which of NOT_IN_SYSTEM and TOO_FAR_IN_SYSTEM
    the node was in: the call ends the same way from either state, and when
    it returns it leaves the same node. *)
Theorem updateState_forgets_unfinished_state (D : Vector3 -> Vector3 -> Q)
        (context : MissionContext) (node : MissionFlyByNode) :
  fst (updateState D context (withState NOT_IN_SYSTEM node))
  = fst (updateState D context (withState TOO_FAR_IN_SYSTEM node))
  /\ (throws (updateState D context (withState NOT_IN_SYSTEM node)) = false ->
      after (updateState D context (withState NOT_IN_SYSTEM node))
      = after (updateState D context (withState TOO_FAR_IN_SYSTEM node))).
Proof.
  assert (Hn : state (withState NOT_IN_SYSTEM node) <> CLOSE_ENOUGH) by discriminate.
  assert (Hf : state (withState TOO_FAR_IN_SYSTEM node) <> CLOSE_ENOUGH) by discriminate.
  destruct (starSystemCoordinatesEquals
              (coordinates (systemModel (currentSystem context)))
              (targetSystemCoordinates node)) eqn:Hc.
  - destruct (getObjectBySystemId (objectId node) (currentSystem context)) eqn:Hr.
    + rewrite (updateState_resolved D context (withState NOT_IN_SYSTEM node) o Hn Hc Hr).
      rewrite (updateState_resolved D context (withState TOO_FAR_IN_SYSTEM node) o Hf Hc Hr).
      split; reflexivity.
    + rewrite (updateState_unresolved D context (withState NOT_IN_SYSTEM node) Hn Hc Hr).
      rewrite (updateState_unresolved D context (withState TOO_FAR_IN_SYSTEM node) Hf Hc Hr).
      split; [reflexivity | discriminate].
  - rewrite (updateState_other_system D context (withState NOT_IN_SYSTEM node) Hn Hc).
    rewrite (updateState_other_system D context (withState TOO_FAR_IN_SYSTEM node) Hf Hc).
    split; reflexivity.
Qed.

Lemma updateState_forgets_unfinished_state_witness :
  throws (updateState Examples.axisDistance (Examples.atDistance 5)
            (withState NOT_IN_SYSTEM Examples.freshNode)) = false
  /\ after (updateState Examples.axisDistance (Examples.atDistance 5)
              (withState NOT_IN_SYSTEM Examples.freshNode))
     = after (updateState Examples.axisDistance (Examples.atDistance 5)
                (withState TOO_FAR_IN_SYSTEM Examples.freshNode)).
Proof.
  split; [reflexivity |].
  destruct (updateState_forgets_unfinished_state Examples.axisDistance
              (Examples.atDistance 5) Examples.freshNode) as [_ Hafter].
  apply Hafter. reflexivity.
Defined.

(** ** The fly-by node: the next task after an update *)

Section NextTask.

Variable D : Vector3 -> Vector3 -> Q.
Variable getObjectModelByUniverseId : UniverseObjectId -> OrbitalObjectModel.
Variable i18n_t : string -> list (string * string) -> string.
Variable getGoToSystemInstructions :
  MissionContext -> StarSystemCoordinates -> KeyboardLayout -> string.

Let describeNextTask' :=
  describeNextTask getObjectModelByUniverseId i18n_t getGoToSystemInstructions.

Local Open Scope string_scope.

Lemma describeNextTask_by_state (context : MissionContext)
      (keyboardLayout : KeyboardLayout) (node : MissionFlyByNode) :
  describeNextTask' context keyboardLayout node
  = (Normal
       match state node with
       | NOT_IN_SYSTEM =>
           getGoToSystemInstructions context (targetSystemCoordinates node)
             keyboardLayout
       | TOO_FAR_IN_SYSTEM =>
           i18n_t "missions:common:getCloserToTarget"
             [ ("objectName", name (getObjectModelByUniverseId (objectId node))) ]
       | CLOSE_ENOUGH => i18n_t "missions:flyBy:missionCompleted" []
       end,
      node).
Proof. destruct node as [s i t]. destruct s; reflexivity. Qed.

(** X3.  What [describeNextTask] says after an [updateState] made in the
    context [tick].  It never throws and leaves the node as the update left
    it.  If the node was completed, the text is the mission-completed one.
    If it was not and [tick] is in another system than the target's, the
    text is the instructions to go to the target system, for the context
    and the keyboard layout of the describing call.  If it was not, [tick]
    is in the target system and the target is found, the text is the
    mission-completed one when the player is below the threshold, and
    otherwise the get-closer one, which names the model of the node's
    [objectId]. *)
Theorem describeNextTask_after_updateState (tick next : MissionContext)
        (keyboardLayout : KeyboardLayout) (node : MissionFlyByNode) :
  let node' := after (updateState D tick node) in
  (state node = CLOSE_ENOUGH ->
   describeNextTask' next keyboardLayout node'
   = (Normal (i18n_t "missions:flyBy:missionCompleted" []), node'))
  /\ (state node <> CLOSE_ENOUGH ->
      coordinates (systemModel (currentSystem tick)) <> targetSystemCoordinates node ->
      describeNextTask' next keyboardLayout node'
      = (Normal (getGoToSystemInstructions next (targetSystemCoordinates node)
                   keyboardLayout), node'))
  /\ (forall targetObject,
        state node <> CLOSE_ENOUGH ->
        coordinates (systemModel (currentSystem tick)) = targetSystemCoordinates node ->
        getObjectBySystemId (objectId node) (currentSystem tick) = Some targetObject ->
        describeNextTask' next keyboardLayout node'
        = (Normal
             (if Qltb (D (playerPosition tick) (getAbsolutePosition targetObject))
                      (getBoundingRadius targetObject
                       * thresholdMultiplier (type (model targetObject)))
              then i18n_t "missions:flyBy:missionCompleted" []
              else i18n_t "missions:common:getCloserToTarget"
                     [ ("objectName",
                        name (getObjectModelByUniverseId (objectId node))) ]),
            node')).
Proof.
  intro node'. unfold node'. split; [| split].
  - intro Hs. rewrite (updateState_completed D tick node Hs).
    rewrite describeNextTask_by_state. unfold after. simpl. rewrite Hs. reflexivity.
  - intros Hs Hc. apply starSystemCoordinatesEquals_neq in Hc.
    rewrite (updateState_other_system D tick node Hs Hc).
    rewrite describeNextTask_by_state. reflexivity.
  - intros targetObject Hs Hc Hr. apply starSystemCoordinatesEquals_eq in Hc.
    rewrite (updateState_resolved D tick node targetObject Hs Hc Hr).
    rewrite describeNextTask_by_state. unfold after. simpl.
    destruct (Qltb _ _); reflexivity.
Qed.

End NextTask.

Lemma describeNextTask_after_updateState_witness :
  returned
    (describeNextTask DescribeExamples.starModel DescribeExamples.translate
       DescribeExamples.goTo Examples.farAway []
       (after (updateState Examples.axisDistance (Examples.atDistance 5)
                 Examples.freshNode)))
  = Some "missions:common:getCloserToTarget|Helios"%string.
Proof.
  destruct (describeNextTask_after_updateState Examples.axisDistance
              DescribeExamples.starModel DescribeExamples.translate
              DescribeExamples.goTo (Examples.atDistance 5) Examples.farAway []
              Examples.freshNode) as (_ & _ & Hin).
  rewrite (Hin Examples.star).
  - reflexivity.
  - discriminate.
  - reflexivity.
  - reflexivity.
Defined.

(** ** The fly-by node: over any history of calls *)

Section CallHistories.

Variable Vector3_Distance : Vector3 -> Vector3 -> Q.
Variable getStarGalacticPosition : StarSystemCoordinates -> Vector3.
Variable getObjectModelByUniverseId : UniverseObjectId -> OrbitalObjectModel.
Variable getSystemModelFromCoordinates : StarSystemCoordinates -> StarSystemModel.
Variable getOrbitalObjectTypeToI18nString : OrbitalObjectModel -> string.
Variable parseDistance : Q -> string.
Variable LIGHT_YEAR : Q.
Variable i18n_t : string -> list (string * string) -> string.
Variable getGoToSystemInstructions :
  MissionContext -> StarSystemCoordinates -> KeyboardLayout -> string.

Let afterCalls' :=
  afterCalls Vector3_Distance getStarGalacticPosition getObjectModelByUniverseId
    getSystemModelFromCoordinates getOrbitalObjectTypeToI18nString parseDistance
    LIGHT_YEAR i18n_t getGoToSystemInstructions.

(** X4.  Saving and loading keeps a node, wherever the mission stands: after
    any history of calls on a constructed node, [serialize] returns a record
    from which the constructor, given the record's [objectId], followed by
    [setState], given the record's [state], builds the very same node. *)
Theorem serialize_rebuilds_node (id : UniverseObjectId) (history : list Call) :
  let node := afterCalls' history (new_MissionFlyByNode id) in
  exists m,
    serialize node = (Normal m, node)
    /\ after (setState (ser_state m) (new_MissionFlyByNode (ser_objectId m))) = node.
Proof.
  intro node.
  destruct (afterCalls_readonly Vector3_Distance getStarGalacticPosition
              getObjectModelByUniverseId getSystemModelFromCoordinates
              getOrbitalObjectTypeToI18nString parseDistance LIGHT_YEAR i18n_t
              getGoToSystemInstructions history (new_MissionFlyByNode id))
    as [Hid Htarget].
  fold afterCalls' in Hid, Htarget. fold node in Hid, Htarget.
  simpl in Hid, Htarget.
  eexists. split; [apply serialize_spec |].
  unfold after, setState, assignState, assign, withState, new_MissionFlyByNode.
  simpl. rewrite Hid. destruct node as [s i t]. simpl in *. subst. reflexivity.
Qed.

(** X5.  Progress does not change which nodes are equal: whatever calls were
    made on a node and on another fly-by node, [equals] answers for them
    what it answered before the calls. *)
Theorem equals_stable_under_calls (node other : MissionFlyByNode)
        (history otherHistory : list Call) :
  returned (equals (FlyByNode (afterCalls' otherHistory other))
              (afterCalls' history node))
  = returned (equals (FlyByNode other) node).
Proof.
  destruct (afterCalls_readonly Vector3_Distance getStarGalacticPosition
              getObjectModelByUniverseId getSystemModelFromCoordinates
              getOrbitalObjectTypeToI18nString parseDistance LIGHT_YEAR i18n_t
              getGoToSystemInstructions history node) as [Hid _].
  destruct (afterCalls_readonly Vector3_Distance getStarGalacticPosition
              getObjectModelByUniverseId getSystemModelFromCoordinates
              getOrbitalObjectTypeToI18nString parseDistance LIGHT_YEAR i18n_t
              getGoToSystemInstructions otherHistory other) as [Hid' _].
  fold afterCalls' in Hid, Hid'.
  run_method. rewrite Hid, Hid'. reflexivity.
Qed.

End CallHistories.

(** ** The fly-by node: the description of the mission *)

Section DescribeFacts.

Variable D : Vector3 -> Vector3 -> Q.
Variable getStarGalacticPosition : StarSystemCoordinates -> Vector3.
Variable getObjectModelByUniverseId : UniverseObjectId -> OrbitalObjectModel.
Variable getSystemModelFromCoordinates : StarSystemCoordinates -> StarSystemModel.
Variable getOrbitalObjectTypeToI18nString : OrbitalObjectModel -> string.
Variable parseDistance : Q -> string.
Variable LIGHT_YEAR : Q.
Variable i18n_t : string -> list (string * string) -> string.

Let describe' :=
  describe D getStarGalacticPosition getObjectModelByUniverseId
    getSystemModelFromCoordinates getOrbitalObjectTypeToI18nString parseDistance
    LIGHT_YEAR i18n_t.

Local Open Scope string_scope.

(** X6.  [describe] names the type of the object of the node's [objectId] and
    the system of the node's target coordinates, never throws and leaves
    the node as it is.  Asked from the target system itself, where the
    distance between the two galactic positions is zero, it gives the
    "here" text as the distance; asked from a system at a positive distance
    it gives that distance, times the light year, as [parseDistance] writes
    it. *)
Theorem describe_distance_text (origin : StarSystemCoordinates)
        (node : MissionFlyByNode) :
  let distance :=
    D (getStarGalacticPosition origin)
      (getStarGalacticPosition (targetSystemCoordinates node)) in
  let text (distanceText : string) :=
    i18n_t "missions:sightseeing:describeFlyBy"
      [ ("objectType",
         getOrbitalObjectTypeToI18nString (getObjectModelByUniverseId (objectId node)));
        ("systemName",
         systemName (getSystemModelFromCoordinates (targetSystemCoordinates node)));
        ("distance", distanceText) ] in
  ((distance == 0)%Q ->
   describe' origin node = (Normal (text (i18n_t "missions:common:here" [])), node))
  /\ ((0 < distance)%Q ->
      describe' origin node
      = (Normal (text (parseDistance (distance * LIGHT_YEAR)%Q)), node)).
Proof.
  intros distance text. split; intro Hd.
  - assert (Hlt : Qltb 0 distance = false) by (apply Qltb_ge; lra).
    unfold describe', describe, bind, read, ret. simpl.
    fold distance. rewrite Hlt. reflexivity.
  - assert (Hlt : Qltb 0 distance = true) by (apply Qltb_lt; exact Hd).
    unfold describe', describe, bind, read, ret. simpl.
    fold distance. rewrite Hlt. reflexivity.
Qed.

End DescribeFacts.

Lemma describe_distance_text_witness :
  returned
    (describe Examples.axisDistance DescribeExamples.galacticPosition
       DescribeExamples.starModel Examples.modelAt DescribeExamples.typeName
       DescribeExamples.lightYears 1 DescribeExamples.translate
       Examples.home Examples.freshNode)
  = Some "missions:sightseeing:describeFlyBy|star|system|missions:common:here"%string
  /\ returned
       (describe Examples.axisDistance DescribeExamples.galacticPosition
          DescribeExamples.starModel Examples.modelAt DescribeExamples.typeName
          DescribeExamples.lightYears 1 DescribeExamples.translate
          Examples.elsewhere Examples.freshNode)
     = Some "missions:sightseeing:describeFlyBy|star|system|some light years"%string.
Proof.
  split.
  - destruct (describe_distance_text Examples.axisDistance
                DescribeExamples.galacticPosition DescribeExamples.starModel
                Examples.modelAt DescribeExamples.typeName
                DescribeExamples.lightYears 1 DescribeExamples.translate
                Examples.home Examples.freshNode) as [Hhere _].
    rewrite Hhere; reflexivity.
  - destruct (describe_distance_text Examples.axisDistance
                DescribeExamples.galacticPosition DescribeExamples.starModel
                Examples.modelAt DescribeExamples.typeName
                DescribeExamples.lightYears 1 DescribeExamples.translate
                Examples.elsewhere Examples.freshNode) as [_ Hfar].
    rewrite Hfar; reflexivity.
Defined.

(** ** The contact stations: the candidates *)

Section CandidateFacts.

Variable getNeighborStarSystemCoordinates :
  StarSystemCoordinates -> Q -> list (StarSystemCoordinates * Vector3 * Q).
Variable getSystemModelFromCoordinates : StarSystemCoordinates -> StarSystemModel.
Variable GetSpaceStations : StarSystemModel -> list OrbitalFacilityModel.

Let stationsWithDistance (neighbor : StarSystemCoordinates * Vector3 * Q) :=
  map (fun station => (station, snd neighbor))
    (GetSpaceStations (getSystemModelFromCoordinates (fst (fst neighbor)))).

Lemma concat_each_flat_map (neighbors : list (StarSystemCoordinates * Vector3 * Q))
      (acc : list (OrbitalFacilityModel * Q)) :
  fold_left
    (fun acc neighbor =>
       let '(coordinates, _, distance) := neighbor in
       let systemModel := getSystemModelFromCoordinates coordinates in
       let spaceStations :=
         map (fun station => (station, distance)) (GetSpaceStations systemModel) in
       acc ++ spaceStations)
    neighbors acc
  = acc ++ flat_map stationsWithDistance neighbors.
Proof.
  revert acc. induction neighbors as [|[[c p] d] rest IH]; intro acc; simpl.
  - rewrite app_nil_r. reflexivity.
  - rewrite IH. rewrite <- app_assoc. reflexivity.
Qed.

(** X7.  The candidates are the stations of the neighbor systems found
    within 75 of the offering station's system, system after system in the
    order the neighbors come and station after station within a system,
    each with the distance of its system: a station is a candidate at
    distance [d] exactly when it is a station of a neighbor at distance
    [d].  With no neighbor there is no candidate. *)
Theorem neighborSpaceStations_of_neighbors (stationModel : OrbitalFacilityModel) :
  let neighbors :=
    getNeighborStarSystemCoordinates
      (coordinates (getSystemModelFromCoordinates (facilityCoordinates stationModel)))
      75 in
  let candidates :=
    neighborSpaceStations getNeighborStarSystemCoordinates
      getSystemModelFromCoordinates GetSpaceStations stationModel in
  candidates = flat_map stationsWithDistance neighbors
  /\ (forall station d,
        In (station, d) candidates
        <-> exists coordinates position,
              In (coordinates, position, d) neighbors
              /\ In station
                   (GetSpaceStations (getSystemModelFromCoordinates coordinates)))
  /\ (neighbors = [] -> candidates = []).
Proof.
  intros neighbors candidates.
  assert (Hflat : candidates = flat_map stationsWithDistance neighbors).
  { unfold candidates, neighborSpaceStations. fold neighbors.
    rewrite concat_each_flat_map. reflexivity. }
  split; [exact Hflat |]. split.
  - intros station d. rewrite Hflat, in_flat_map. unfold stationsWithDistance. split.
    + intros [[[c p] d'] [Hn Hs]]. simpl in Hs. apply in_map_iff in Hs.
      destruct Hs as [s [Heq Hs]]. injection Heq as -> ->.
      exists c, p. split; assumption.
    + intros [c [p [Hn Hs]]]. exists (c, p, d). split; [exact Hn |].
      simpl. apply in_map_iff. exists station. split; [reflexivity | exact Hs].
  - intro Hnil. rewrite Hflat, Hnil. reflexivity.
Qed.

End CandidateFacts.

Lemma neighborSpaceStations_of_neighbors_witness :
  In (Examples.harbour, 2%Q)
     (neighborSpaceStations Examples.neighborsOfHome Examples.modelAt
        Examples.stationsOf Examples.offering).
Proof.
  destruct (neighborSpaceStations_of_neighbors Examples.neighborsOfHome
              Examples.modelAt Examples.stationsOf Examples.offering)
    as (_ & Hin & _).
  apply Hin. exists Examples.elsewhere, (mkVector3 2 0 0). split.
  - simpl. right. left. reflexivity.
  - simpl. left. reflexivity.
Defined.

(** ** The contact stations: stations at the same distance *)

Lemma Array_sort_insert_atDistanceOf (d : Q) (a : OrbitalFacilityModel * Q)
      (sorted : list (OrbitalFacilityModel * Q)) :
  filter (atDistanceOf d) (Array_sort_insert byDistance a sorted)
  = if atDistanceOf d a
    then a :: filter (atDistanceOf d) sorted
    else filter (atDistanceOf d) sorted.
Proof.
  induction sorted as [|b rest IH]; simpl.
  - reflexivity.
  - destruct (Qle_bool (byDistance a b) 0) eqn:Hcmp.
    + simpl. destruct (atDistanceOf d a); reflexivity.
    + simpl. rewrite IH.
      destruct (atDistanceOf d a) eqn:Ha; [| reflexivity].
      assert (Hb : atDistanceOf d b = false).
      { apply not_true_iff_false. intro Hb.
        unfold atDistanceOf in Ha, Hb.
        apply Qeq_bool_iff in Ha. apply Qeq_bool_iff in Hb.
        assert (Hle : Qle_bool (byDistance a b) 0 = true).
        { apply Qle_bool_iff. unfold byDistance. lra. }
        congruence. }
      rewrite Hb. reflexivity.
Qed.

Lemma Array_sort_atDistanceOf (d : Q) (array : list (OrbitalFacilityModel * Q)) :
  filter (atDistanceOf d) (Array_sort byDistance array)
  = filter (atDistanceOf d) array.
Proof.
  induction array as [|a rest IH]; simpl.
  - reflexivity.
  - rewrite Array_sort_insert_atDistanceOf, IH. reflexivity.
Qed.

Section ContactStationsTies.

Variable Rng : Type.
Variable getRngFromSeed : Z -> Rng.
Variable uniformRandBool : Q -> Rng -> nat -> bool.
Variable getNeighborStarSystemCoordinates :
  StarSystemCoordinates -> Q -> list (StarSystemCoordinates * Vector3 * Q).
Variable getSystemModelFromCoordinates : StarSystemCoordinates -> StarSystemModel.
Variable GetSpaceStations : StarSystemModel -> list OrbitalFacilityModel.

(** X9.  The sort moves no station past a station at the same distance:
    the contact stations at any one distance are the candidates at that
    distance that passed the two filters, in the order of the candidates.
    The list is no longer than the list of candidates. *)
Theorem contactStations_keep_order_at_a_distance
        (stationModel : OrbitalFacilityModel) (d : Q) :
  let candidates :=
    neighborSpaceStations getNeighborStarSystemCoordinates
      getSystemModelFromCoordinates GetSpaceStations stationModel in
  let result :=
    contactStations Rng getRngFromSeed uniformRandBool
      getNeighborStarSystemCoordinates getSystemModelFromCoordinates
      GetSpaceStations stationModel in
  filter (atDistanceOf d) result
  = filter (atDistanceOf d)
      (filter (sameFaction stationModel)
         (Array_filter
            (pruneByDistance Rng uniformRandBool (getRngFromSeed (seed stationModel)))
            candidates))
  /\ (List.length result <= List.length candidates)%nat.
Proof.
  intros candidates result. split.
  - apply Array_sort_atDistanceOf.
  - unfold result, contactStations, contactStationsOf. fold candidates.
    rewrite (Permutation_length (Array_sort_Permutation byDistance _)).
    eapply Nat.le_trans; [apply filter_length_le |].
    unfold Array_filter. generalize 0%nat.
    induction candidates as [|c rest IH]; intro start; simpl.
    + apply Nat.le_refl.
    + destruct (pruneByDistance _ _ _ _ _); simpl.
      * apply le_n_S. apply IH.
      * apply Nat.le_trans with (List.length rest); [apply IH | apply Nat.le_succ_diag_r].
Qed.

End ContactStationsTies.

(** ** The black hole post-process: the time of its uniforms *)

(** Comparisons of given rationals, by computation. *)
Ltac Qcalc :=
  vm_compute; first [reflexivity | discriminate | (intro; discriminate)].

Module BlackHoleFacts.

Import BlackHolePostProcesses.

Lemma Qtruncate_nonneg (q : Q) :
  (0 <= q)%Q ->
  (inject_Z (Qtruncate q) <= q)%Q /\ (q < inject_Z (Qtruncate q) + 1)%Q.
Proof.
  destruct q as [n d]. unfold Qle, Qlt, Qtruncate. simpl. intro Hn.
  assert (Hn' : (0 <= n)%Z) by lia.
  pose proof (Z.quot_rem' n (Z.pos d)) as Hqr.
  pose proof (Z.rem_bound_pos n (Z.pos d) Hn' (Pos2Z.is_pos d)) as Hr.
  split; nia.
Qed.

Lemma Qtruncate_nonpos (q : Q) :
  (q <= 0)%Q ->
  (inject_Z (Qtruncate q) - 1 < q)%Q /\ (q <= inject_Z (Qtruncate q))%Q.
Proof.
  destruct q as [n d]. unfold Qle, Qlt, Qtruncate. simpl. intro Hn.
  assert (Hn' : (n <= 0)%Z) by lia.
  pose proof (Z.quot_rem' n (Z.pos d)) as Hqr.
  pose proof (Z.rem_bound_pos_neg n (Z.pos d) (Pos2Z.is_pos d) Hn') as Hr.
  split; nia.
Qed.

Lemma Number_remainder_decomposes (a b : Q) :
  ~ (b == 0)%Q ->
  (Number_remainder a b == b * (a / b - inject_Z (Qtruncate (a / b))))%Q.
Proof.
  intro Hb. unfold Number_remainder.
  assert (Hab : (b * (a / b) == a)%Q) by (apply Qmult_div_r; exact Hb).
  set (k := inject_Z (Qtruncate (a / b))) in *.
  set (q := (a / b)%Q) in *. lra.
Qed.

Lemma quotient_sign (a b : Q) :
  (0 < b)%Q ->
  ((0 <= a)%Q -> (0 <= a / b)%Q) /\ ((a <= 0)%Q -> (a / b <= 0)%Q).
Proof.
  intro Hb. split; intro Ha.
  - apply Qle_shift_div_l; [exact Hb | lra].
  - apply Qle_shift_div_r; [exact Hb | lra].
Qed.

Lemma Number_remainder_nonneg (a b : Q) :
  (0 < b)%Q -> (0 <= a)%Q ->
  (0 <= Number_remainder a b)%Q /\ (Number_remainder a b < b)%Q.
Proof.
  intros Hb Ha.
  rewrite (Number_remainder_decomposes a b) by lra.
  destruct (quotient_sign a b Hb) as [Hq _]. specialize (Hq Ha).
  destruct (Qtruncate_nonneg (a / b) Hq) as [Hlo Hhi].
  set (k := inject_Z (Qtruncate (a / b))) in *.
  set (q := (a / b)%Q) in *. split; nra.
Qed.

Lemma Number_remainder_nonpos (a b : Q) :
  (0 < b)%Q -> (a <= 0)%Q ->
  (- b < Number_remainder a b)%Q /\ (Number_remainder a b <= 0)%Q.
Proof.
  intros Hb Ha.
  rewrite (Number_remainder_decomposes a b) by lra.
  destruct (quotient_sign a b Hb) as [_ Hq]. specialize (Hq Ha).
  destruct (Qtruncate_nonpos (a / b) Hq) as [Hlo Hhi].
  set (k := inject_Z (Qtruncate (a / b))) in *.
  set (q := (a / b)%Q) in *. split; nra.
Qed.

(** Two numbers of [0, b) that differ by a whole multiple of [b] are equal. *)
Lemma remainder_unique (b r r' : Q) (k : Z) :
  (0 < b)%Q -> (0 <= r)%Q -> (r < b)%Q -> (0 <= r')%Q -> (r' < b)%Q ->
  (r - r' == b * inject_Z k)%Q ->
  (r == r')%Q.
Proof.
  intros Hb Hr0 Hr1 Hr'0 Hr'1 Hk.
  assert (Hlo : (- 1 < inject_Z k)%Q) by nra.
  assert (Hhi : (inject_Z k < 1)%Q) by nra.
  assert (Hz : k = 0%Z).
  { unfold Qlt, inject_Z in Hlo, Hhi. simpl in Hlo, Hhi. lia. }
  subst k. change (inject_Z 0) with 0%Q in Hk. lra.
Qed.

Lemma update_time (deltaSeconds : Q) (uniforms : BlackHoleUniforms) :
  time (update deltaSeconds uniforms)
  = Number_remainder (time uniforms + deltaSeconds) (60 * 60 * 24).
Proof. reflexivity. Qed.

(** X10.  [update] adds the frame's seconds to the time of the uniforms and
    brings the sum back within a day, a whole number of days away from it,
    on the side of zero the sum is on: from a sum that is not negative the
    time lands in [0, 86400), from a sum that is not positive in
    (-86400, 0], and a sum already in [0, 86400) is kept as it is.  The
    other uniforms are not touched. *)
Theorem update_keeps_time_within_a_day (deltaSeconds : Q)
        (uniforms : BlackHoleUniforms) :
  let sum := (time uniforms + deltaSeconds)%Q in
  let time' := time (update deltaSeconds uniforms) in
  (exists days : Z, (time' == sum - 86400 * inject_Z days)%Q)
  /\ ((0 <= sum)%Q -> (0 <= time')%Q /\ (time' < 86400)%Q)
  /\ ((sum <= 0)%Q -> (- 86400 < time')%Q /\ (time' <= 0)%Q)
  /\ ((0 <= sum)%Q -> (sum < 86400)%Q -> (time' == sum)%Q)
  /\ update deltaSeconds uniforms = withTime time' uniforms.
Proof.
  intros sum time'.
  assert (Hday : (60 * 60 * 24 == 86400)%Q) by reflexivity.
  assert (Hpos : (0 < 60 * 60 * 24)%Q) by reflexivity.
  assert (Hform : (time' == sum - 86400 * inject_Z (Qtruncate (sum / (60 * 60 * 24))))%Q).
  { unfold time'. rewrite update_time. fold sum. unfold Number_remainder.
    rewrite Hday at 1. reflexivity. }
  assert (Hnonneg : (0 <= sum)%Q -> (0 <= time')%Q /\ (time' < 86400)%Q).
  { intro Hs. unfold time'. rewrite update_time. fold sum.
    destruct (Number_remainder_nonneg sum (60 * 60 * 24) Hpos Hs) as [H0 H1].
    split; [exact H0 | rewrite <- Hday; exact H1]. }
  split; [eexists; exact Hform |].
  split; [exact Hnonneg |].
  split.
  { intro Hs. unfold time'. rewrite update_time. fold sum.
    destruct (Number_remainder_nonpos sum (60 * 60 * 24) Hpos Hs) as [H0 H1].
    split; [| exact H1].
    assert (Hneg : (- (60 * 60 * 24) == - 86400)%Q) by reflexivity.
    rewrite <- Hneg. exact H0. }
  split; [| reflexivity].
  intros Hs0 Hs1. destruct (Hnonneg Hs0) as [H0 H1].
  assert (Hb : (0 < 86400)%Q) by reflexivity.
  apply (remainder_unique 86400 time' sum
           (- Qtruncate (sum / (60 * 60 * 24))) Hb H0 H1 Hs0 Hs1).
  rewrite Hform, inject_Z_opp. ring.
Qed.

Lemma update_keeps_time_within_a_day_witness :
  (0 <= time atNoon + 50000)%Q
  /\ (time (update 50000 atNoon) == 6800)%Q
  /\ (time (update 50000 atNoon) < 86400)%Q.
Proof.
  split; [Qcalc |]. split; [Qcalc |].
  destruct (update_keeps_time_within_a_day 50000 atNoon) as (_ & Hin & _).
  apply Hin. Qcalc.
Defined.

Lemma withTime_same (uniforms : BlackHoleUniforms) :
  withTime (time uniforms) uniforms = uniforms.
Proof. destruct uniforms; reflexivity. Qed.

Lemma updateEach_frame (frames : list Q) (uniforms : BlackHoleUniforms) :
  updateEach frames uniforms
  = withTime (time (updateEach frames uniforms)) uniforms.
Proof.
  unfold updateEach. revert uniforms.
  induction frames as [|deltaSeconds frames IH]; intro uniforms; simpl.
  - symmetry. apply withTime_same.
  - rewrite (IH (update deltaSeconds uniforms)) at 1. reflexivity.
Qed.

(** One frame, by the side of zero its sum is on. *)
Lemma update_time_nonneg (deltaSeconds : Q) (uniforms : BlackHoleUniforms) :
  (0 <= time uniforms + deltaSeconds)%Q ->
  (0 <= time (update deltaSeconds uniforms))%Q
  /\ (time (update deltaSeconds uniforms) < 86400)%Q.
Proof.
  intro Hs. rewrite update_time.
  assert (Hpos : (0 < 60 * 60 * 24)%Q) by reflexivity.
  assert (Hday : (60 * 60 * 24 == 86400)%Q) by reflexivity.
  destruct (Number_remainder_nonneg _ (60 * 60 * 24) Hpos Hs) as [H0 H1].
  split; [exact H0 | rewrite <- Hday; exact H1].
Qed.

Lemma update_time_nonpos (deltaSeconds : Q) (uniforms : BlackHoleUniforms) :
  (time uniforms + deltaSeconds <= 0)%Q ->
  (- 86400 < time (update deltaSeconds uniforms))%Q
  /\ (time (update deltaSeconds uniforms) <= 0)%Q.
Proof.
  intro Hs. rewrite update_time.
  assert (Hpos : (0 < 60 * 60 * 24)%Q) by reflexivity.
  assert (Hneg : (- (60 * 60 * 24) == - 86400)%Q) by reflexivity.
  destruct (Number_remainder_nonpos _ (60 * 60 * 24) Hpos Hs) as [H0 H1].
  split; [rewrite <- Hneg; exact H0 | exact H1].
Qed.

(** X11.  A run of frames keeps the time within a day: after one frame or
    more whose durations are not negative, from a time that is not
    negative, the time is in [0, 86400); after one frame or more whose
    durations are not positive, from a time that is not positive, it is in
    (-86400, 0].  However long the run and whatever its durations, the
    other uniforms are as they were. *)
Theorem update_runs_keep_time_within_a_day (frames : list Q)
        (uniforms : BlackHoleUniforms) :
  (Forall (fun deltaSeconds => (0 <= deltaSeconds)%Q) frames ->
   (0 <= time uniforms)%Q ->
   frames <> [] ->
   (0 <= time (updateEach frames uniforms))%Q
   /\ (time (updateEach frames uniforms) < 86400)%Q)
  /\ (Forall (fun deltaSeconds => (deltaSeconds <= 0)%Q) frames ->
      (time uniforms <= 0)%Q ->
      frames <> [] ->
      (- 86400 < time (updateEach frames uniforms))%Q
      /\ (time (updateEach frames uniforms) <= 0)%Q)
  /\ updateEach frames uniforms
     = withTime (time (updateEach frames uniforms)) uniforms.
Proof.
  split; [| split; [| apply updateEach_frame]].
  - intros Hall Ht Hne.
    assert (Hrun : forall fs u,
               Forall (fun deltaSeconds => (0 <= deltaSeconds)%Q) fs ->
               (0 <= time u)%Q -> (time u < 86400)%Q ->
               (0 <= time (updateEach fs u))%Q
               /\ (time (updateEach fs u) < 86400)%Q).
    { induction fs as [|f fs IH]; intros u Hfs Hu0 Hu1.
      - split; assumption.
      - inversion Hfs as [|? ? Hf Hfs']; subst.
        destruct (update_time_nonneg f u ltac:(lra)) as [H0 H1].
        apply (IH (update f u) Hfs' H0 H1). }
    destruct frames as [|f fs]; [contradiction |].
    inversion Hall as [|? ? Hf Hfs]; subst.
    destruct (update_time_nonneg f uniforms ltac:(lra)) as [H0 H1].
    apply (Hrun fs (update f uniforms) Hfs H0 H1).
  - intros Hall Ht Hne.
    assert (Hrun : forall fs u,
               Forall (fun deltaSeconds => (deltaSeconds <= 0)%Q) fs ->
               (- 86400 < time u)%Q -> (time u <= 0)%Q ->
               (- 86400 < time (updateEach fs u))%Q
               /\ (time (updateEach fs u) <= 0)%Q).
    { induction fs as [|f fs IH]; intros u Hfs Hu0 Hu1.
      - split; assumption.
      - inversion Hfs as [|? ? Hf Hfs']; subst.
        destruct (update_time_nonpos f u ltac:(lra)) as [H0 H1].
        apply (IH (update f u) Hfs' H0 H1). }
    destruct frames as [|f fs]; [contradiction |].
    inversion Hall as [|? ? Hf Hfs]; subst.
    destruct (update_time_nonpos f uniforms ltac:(lra)) as [H0 H1].
    apply (Hrun fs (update f uniforms) Hfs H0 H1).
Qed.

Lemma update_runs_keep_time_within_a_day_witness :
  (0 <= time (updateEach [20000; 30000; 40000] atNoon))%Q
  /\ (time (updateEach [20000; 30000; 40000] atNoon) < 86400)%Q.
Proof.
  destruct (update_runs_keep_time_within_a_day [20000; 30000; 40000] atNoon)
    as [Hin _].
  apply Hin.
  - repeat constructor; Qcalc.
  - Qcalc.
  - discriminate.
Defined.

End BlackHoleFacts.

(** ** The spaceship: the throttle of the main engine *)

Module ShipFacts.

Import Spaceships.

Lemma clamp_between (sum : Q) :
  let t := Qmax (- 1) (Qmin 1 sum) in
  (- 1 <= t)%Q /\ (t <= 1)%Q
  /\ ((- 1 <= sum)%Q -> (sum <= 1)%Q -> (t == sum)%Q)
  /\ ((1 <= sum)%Q -> (t == 1)%Q)
  /\ ((sum <= - 1)%Q -> (t == - 1)%Q).
Proof.
  intro t.
  pose proof (Q.min_spec 1 sum) as Hmin.
  pose proof (Q.max_spec (- 1) (Qmin 1 sum)) as Hmax.
  fold t in Hmax. set (low := Qmin 1 sum) in *. clearbody t low.
  destruct Hmin as [[Hm1 Hm2] | [Hm1 Hm2]];
    destruct Hmax as [[Hx1 Hx2] | [Hx1 Hx2]];
    repeat split; intros; lra.
Qed.

(** X12.  [increaseMainEngineThrottle] leaves the throttle between -1 and 1
    whatever it was and whatever the increase: the sum of the two when that
    sum is in range, 1 when the sum is above and -1 when it is below.
    Nothing else of the ship changes and the call never throws. *)
Theorem increaseMainEngineThrottle_clamps (delta : Q) (ship : Spaceship) :
  let sum := (mainEngineThrottle ship + delta)%Q in
  let ship' := after (increaseMainEngineThrottle delta ship) in
  (- 1 <= mainEngineThrottle ship')%Q
  /\ (mainEngineThrottle ship' <= 1)%Q
  /\ ((- 1 <= sum)%Q -> (sum <= 1)%Q -> (mainEngineThrottle ship' == sum)%Q)
  /\ ((1 <= sum)%Q -> (mainEngineThrottle ship' == 1)%Q)
  /\ ((sum <= - 1)%Q -> (mainEngineThrottle ship' == - 1)%Q)
  /\ increaseMainEngineThrottle delta ship
     = (Normal tt, set_mainEngineThrottle (mainEngineThrottle ship') ship).
Proof.
  intros sum ship'.
  destruct (clamp_between sum) as (B1 & B2 & B3 & B4 & B5).
  split; [exact B1 |]. split; [exact B2 |]. split; [exact B3 |].
  split; [exact B4 |]. split; [exact B5 | reflexivity].
Qed.

Lemma increaseMainEngineThrottle_clamps_witness :
  (1 <= mainEngineThrottle ShipExamples.wanderer + 3)%Q
  /\ (mainEngineThrottle
        (after (increaseMainEngineThrottle 3 ShipExamples.wanderer)) == 1)%Q.
Proof.
  split; [Qcalc |].
  destruct (increaseMainEngineThrottle_clamps 3 ShipExamples.wanderer)
    as (_ & _ & _ & Hhigh & _).
  apply Hhigh. Qcalc.
Defined.

(** ** The spaceship: fuel *)

Section Fuel.

Variable imports : Imports.

Lemma burnFuel_unfold (amount : Q) (ship : Spaceship) :
  burnFuel imports amount ship
  = if Qltb (reduceSum getCurrentFuel (fuelTanks ship)) amount
    then (Throw "Not enough fuel in the tanks."%string, ship)
    else
      match burnFuelLoop imports (fuelTanks ship) amount with
      | (Normal leftover, tanks') => (Normal (amount - leftover)%Q, set_fuelTanks tanks' ship)
      | (Throw e, tanks') => (Throw e, set_fuelTanks tanks' ship)
      end.
Proof.
  unfold burnFuel, getRemainingFuel, bind, read, ret, throw, assign. simpl.
  destruct (Qltb _ amount); [reflexivity |].
  destruct (burnFuelLoop imports (fuelTanks ship) amount) as [[leftover | e] tanks'];
    reflexivity.
Qed.

Lemma refuel_unfold (amount : Q) (ship : Spaceship) :
  refuel imports amount ship
  = match refuelLoop imports (fuelTanks ship) amount with
    | (Normal leftover, tanks') => (Normal (amount - leftover)%Q, set_fuelTanks tanks' ship)
    | (Throw e, tanks') => (Throw e, set_fuelTanks tanks' ship)
    end.
Proof.
  unfold refuel, bind, read, ret, throw, assign. simpl.
  destruct (refuelLoop imports (fuelTanks ship) amount) as [[leftover | e] tanks'];
    reflexivity.
Qed.

Lemma set_fuelTanks_same (ship : Spaceship) :
  set_fuelTanks (fuelTanks ship) ship = ship.
Proof. destruct ship; reflexivity. Qed.

(** The loops leave as many tanks as they found, throw or no throw. *)
Lemma burnFuelLoop_length (tanks : list FuelTank) (fuelLeftToBurn : Q) :
  List.length (snd (burnFuelLoop imports tanks fuelLeftToBurn)) = List.length tanks.
Proof.
  revert fuelLeftToBurn. induction tanks as [|tank later IH]; intro fuelLeftToBurn;
    simpl.
  - reflexivity.
  - destruct (FuelTank_burnFuel imports _ tank) as [[[] | e] tank1]; [| reflexivity].
    specialize (IH (fuelLeftToBurn - (getCurrentFuel tank - getCurrentFuel tank1))%Q).
    destruct (burnFuelLoop imports later _) as [completion later'].
    simpl in *. rewrite IH. reflexivity.
Qed.

Lemma refuelLoop_length (tanks : list FuelTank) (fuelLeftToRefuel : Q) :
  List.length (snd (refuelLoop imports tanks fuelLeftToRefuel)) = List.length tanks.
Proof.
  revert fuelLeftToRefuel. induction tanks as [|tank later IH];
    intro fuelLeftToRefuel; simpl.
  - reflexivity.
  - destruct (FuelTank_fill imports _ tank) as [[[] | e] tank1]; [| reflexivity].
    specialize (IH (fuelLeftToRefuel - (getCurrentFuel tank1 - getCurrentFuel tank))%Q).
    destruct (refuelLoop imports later _) as [completion later'].
    simpl in *. rewrite IH. reflexivity.
Qed.


(** No tank is asked to take more than it has room for. *)
Lemma refuelLoop_returns :
  takesWhatFits imports ->
  forall (tanks : list FuelTank) (fuelLeftToRefuel : Q),
    exists leftover tanks',
      refuelLoop imports tanks fuelLeftToRefuel = (Normal leftover, tanks').
Proof.
  intros Hfill tanks. induction tanks as [|tank later IH]; intro fuelLeftToRefuel;
    simpl.
  - eexists. eexists. reflexivity.
  - pose proof (Hfill (Qmin fuelLeftToRefuel (getMaxFuel tank - getCurrentFuel tank))
                  tank (Q.le_min_r _ _)) as Hreturns.
    destruct (FuelTank_fill imports _ tank) as [[[] | e] tank1];
      [| discriminate Hreturns].
    destruct (IH (fuelLeftToRefuel - (getCurrentFuel tank1 - getCurrentFuel tank))%Q)
      as [leftover [later' Hlater]].
    rewrite Hlater. eexists. eexists. reflexivity.
Qed.

Lemma refuel_returns (amount : Q) (ship : Spaceship) :
  takesWhatFits imports ->
  exists taken tanks',
    refuel imports amount ship = (Normal taken, set_fuelTanks tanks' ship)
    /\ List.length tanks' = List.length (fuelTanks ship).
Proof.
  intro Hfill.
  destruct (refuelLoop_returns Hfill (fuelTanks ship) amount)
    as [leftover [tanks' Hloop]].
  pose proof (refuelLoop_length (fuelTanks ship) amount) as Hlen.
  rewrite Hloop in Hlen. simpl in Hlen.
  exists (amount - leftover)%Q, tanks'.
  rewrite refuel_unfold, Hloop. split; [reflexivity | exact Hlen].
Qed.

(** X13.  The two fuel methods change the tanks and nothing else of the
    ship, and leave as many tanks as there were, whether they return or
    throw and whatever the tanks do.  Asked for more than the tanks hold
    together, [burnFuel] throws "Not enough fuel in the tanks." before it
    asks any tank, and the ship is as it was.  [getRemainingFuel] and
    [getTotalFuelCapacity] return without changing the ship. *)
Theorem fuel_calls_change_tanks_only (amount : Q) (ship : Spaceship) :
  ((reduceSum getCurrentFuel (fuelTanks ship) < amount)%Q ->
   burnFuel imports amount ship
   = (Throw "Not enough fuel in the tanks."%string, ship))
  /\ (exists tanks',
        after (burnFuel imports amount ship) = set_fuelTanks tanks' ship
        /\ List.length tanks' = List.length (fuelTanks ship))
  /\ (exists tanks',
        after (refuel imports amount ship) = set_fuelTanks tanks' ship
        /\ List.length tanks' = List.length (fuelTanks ship))
  /\ after (getRemainingFuel ship) = ship
  /\ after (getTotalFuelCapacity ship) = ship
  /\ throws (getRemainingFuel ship) = false
  /\ throws (getTotalFuelCapacity ship) = false.
Proof.
  split; [| split; [| split]].
  - intro Hlt. apply Qltb_lt in Hlt. rewrite burnFuel_unfold, Hlt. reflexivity.
  - rewrite burnFuel_unfold.
    destruct (Qltb _ amount).
    + exists (fuelTanks ship). unfold after. simpl.
      split; [rewrite set_fuelTanks_same; reflexivity | reflexivity].
    + pose proof (burnFuelLoop_length (fuelTanks ship) amount) as Hlen.
      destruct (burnFuelLoop imports (fuelTanks ship) amount)
        as [[leftover | e] tanks']; exists tanks'; split;
        try reflexivity; exact Hlen.
  - rewrite refuel_unfold.
    pose proof (refuelLoop_length (fuelTanks ship) amount) as Hlen.
    destruct (refuelLoop imports (fuelTanks ship) amount)
      as [[leftover | e] tanks']; exists tanks'; split;
      try reflexivity; exact Hlen.
  - repeat split.
Qed.



End Fuel.


Lemma plainImports_takesWhatFits : takesWhatFits ShipExamples.plainImports.
Proof.
  intros amount tank Hle. simpl. unfold ShipExamples.plainFill.
  assert (Hlt : Qltb (getMaxFuel tank) (getCurrentFuel tank + amount) = false)
    by (apply Qltb_ge; lra).
  rewrite Hlt. reflexivity.
Qed.

Lemma fuel_calls_change_tanks_only_witness :
  (reduceSum getCurrentFuel (fuelTanks ShipExamples.wanderer) < 90)%Q
  /\ burnFuel ShipExamples.plainImports 90 ShipExamples.wanderer
     = (Throw "Not enough fuel in the tanks."%string, ShipExamples.wanderer).
Proof.
  split; [Qcalc |].
  destruct (fuel_calls_change_tanks_only ShipExamples.plainImports 90
              ShipExamples.wanderer) as [Hguard _].
  apply Hguard. Qcalc.
Defined.



(** ** The spaceship: the fuel scoop *)

Import FuelScooping.

Section FuelScoopFacts.

Variable imports : Imports.

(** The ship once the scoop is marked as running. *)
Let started (ship : Spaceship) : Spaceship :=
  if isFuelScooping ship then ship
  else set_calls (calls (set_isFuelScooping true ship)
                  ++ [notifyObservers onFuelScoopStart])
         (set_isFuelScooping true ship).

(** The ship once the scoop is marked as stopped. *)
Let stopped (ship : Spaceship) : Spaceship :=
  if isFuelScooping ship
  then set_calls (calls (set_isFuelScooping false ship)
                  ++ [notifyObservers onFuelScoopEnd])
         (set_isFuelScooping false ship)
  else ship.

Lemma handleFuelScoop_without (deltaSeconds : Q) (ship : Spaceship) :
  fuelScoop ship = None
  \/ nearestCelestialBody ship = None
  \/ (exists body, nearestCelestialBody ship = Some body /\ canScoopFrom body = false) ->
  handleFuelScoop imports deltaSeconds ship = (Normal tt, ship).
Proof.
  unfold handleFuelScoop, bind, read, ret.
  intros [H | [H | [body [H Hc]]]].
  - rewrite H. reflexivity.
  - destruct (fuelScoop ship); [| reflexivity]. rewrite H. reflexivity.
  - destruct (fuelScoop ship); [| reflexivity]. rewrite H.
    unfold canScoopFrom in Hc. rewrite Hc. reflexivity.
Qed.

Lemma handleFuelScoop_stops (deltaSeconds : Q) (ship : Spaceship)
      (scoop : FuelScoop) (body : CelestialBody) :
  fuelScoop ship = Some scoop ->
  nearestCelestialBody ship = Some body ->
  canScoopFrom body = true ->
  fullOrTooFar imports body ship = true ->
  handleFuelScoop imports deltaSeconds ship = (Normal tt, stopped ship).
Proof.
  intros Hs Hb Hc Hf.
  unfold handleFuelScoop, getRemainingFuel, getTotalFuelCapacity, bind, read, ret.
  rewrite Hs. cbv beta iota. rewrite Hb. cbv beta iota.
  unfold canScoopFrom in Hc. rewrite Hc. cbv beta iota. unfold negb.
  unfold fullOrTooFar in Hf. rewrite Hf.
  unfold stopped, stopFuelScooping, bind, read, ret, external, assign.
  destruct (isFuelScooping ship); reflexivity.
Qed.

Lemma handleFuelScoop_scoops (deltaSeconds : Q) (ship : Spaceship)
      (scoop : FuelScoop) (body : CelestialBody) :
  fuelScoop ship = Some scoop ->
  nearestCelestialBody ship = Some body ->
  canScoopFrom body = true ->
  fullOrTooFar imports body ship = false ->
  handleFuelScoop imports deltaSeconds ship
  = match refuel imports
            (fuelPerSecond scoop
             * match type (model (orbitalObject body)) with
               | STAR => 1
               | GAS_PLANET => 0.3
               | _ => 0
               end
             * deltaSeconds)
            (started ship) with
    | (Normal _, ship') => (Normal tt, ship')
    | (Throw e, ship') => (Throw e, ship')
    end.
Proof.
  intros Hs Hb Hc Hf.
  unfold handleFuelScoop, getRemainingFuel, getTotalFuelCapacity, bind, read, ret.
  rewrite Hs. cbv beta iota. rewrite Hb. cbv beta iota.
  unfold canScoopFrom in Hc. rewrite Hc. cbv beta iota. unfold negb.
  unfold fullOrTooFar in Hf. rewrite Hf.
  unfold started, external, assign.
  destruct (isFuelScooping ship); cbv beta iota; unfold negb; cbv beta iota;
    match goal with
    | |- context [refuel imports ?a ?s] => destruct (refuel imports a s) as [[taken | e] ship']
    end; reflexivity.
Qed.

Lemma refuel_changes_tanks_only (amount : Q) (ship : Spaceship) :
  after (refuel imports amount ship)
  = set_fuelTanks (fuelTanks (after (refuel imports amount ship))) ship.
Proof.
  rewrite refuel_unfold.
  destruct (refuelLoop imports (fuelTanks ship) amount) as [[leftover | e] tanks'];
    reflexivity.
Qed.

Lemma countNotifications_app (observable : ShipObservable)
      (recorded : list ExternalCall) (c : ExternalCall) :
  countNotifications observable (recorded ++ [c])
  = (countNotifications observable recorded
     + if notifies observable c then 1 else 0)%nat.
Proof.
  unfold countNotifications. rewrite filter_app, length_app. simpl.
  destruct (notifies observable c); reflexivity.
Qed.

Lemma started_level (ship : Spaceship) :
  scoopNotificationsLevel ship -> scoopNotificationsLevel (started ship).
Proof.
  unfold scoopNotificationsLevel, started.
  destruct (isFuelScooping ship) eqn:Hs; [rewrite Hs; trivial |].
  simpl. rewrite !countNotifications_app. simpl. lia.
Qed.

Lemma stopped_level (ship : Spaceship) :
  scoopNotificationsLevel ship -> scoopNotificationsLevel (stopped ship).
Proof.
  unfold scoopNotificationsLevel, stopped.
  destruct (isFuelScooping ship) eqn:Hs; [| rewrite Hs; trivial].
  simpl. rewrite !countNotifications_app. simpl. lia.
Qed.

Lemma handleFuelScoop_level (deltaSeconds : Q) (ship : Spaceship) :
  scoopNotificationsLevel ship ->
  scoopNotificationsLevel (after (handleFuelScoop imports deltaSeconds ship)).
Proof.
  intro Hlevel.
  destruct (fuelScoop ship) as [scoop |] eqn:Hs;
    [| rewrite handleFuelScoop_without by (left; exact Hs); exact Hlevel].
  destruct (nearestCelestialBody ship) as [body |] eqn:Hb;
    [| rewrite handleFuelScoop_without by (right; left; exact Hb); exact Hlevel].
  destruct (canScoopFrom body) eqn:Hc;
    [| rewrite handleFuelScoop_without
         by (right; right; exists body; split; assumption);
       exact Hlevel].
  destruct (fullOrTooFar imports body ship) eqn:Hf.
  - rewrite (handleFuelScoop_stops deltaSeconds ship scoop body Hs Hb Hc Hf).
    apply stopped_level. exact Hlevel.
  - rewrite (handleFuelScoop_scoops deltaSeconds ship scoop body Hs Hb Hc Hf).
    match goal with
    | |- context [refuel imports ?a ?s] =>
        pose proof (refuel_changes_tanks_only a s) as Htanks;
        destruct (refuel imports a s) as [[taken | e] ship']
    end; unfold after in *; simpl in *; rewrite Htanks;
      apply (started_level ship Hlevel).
Qed.

(** X17.  The scoop does nothing at all, every field of the ship as it was,
    when the ship has no scoop, or no nearest celestial body, or a nearest
    body that is neither a star nor a gas planet.  With a scoop and such a
    body, when the tanks are full to within a hundredth or the body is
    farther than 1.7 times its bounding radius, the scoop stops: the tanks
    are not touched, the ship is not scooping afterwards, and the end of
    the scooping is notified exactly when the ship was scooping. *)
Theorem handleFuelScoop_idle_or_stopping (deltaSeconds : Q) (ship : Spaceship) :
  (fuelScoop ship = None
   \/ nearestCelestialBody ship = None
   \/ (exists body,
         nearestCelestialBody ship = Some body /\ canScoopFrom body = false) ->
   handleFuelScoop imports deltaSeconds ship = (Normal tt, ship))
  /\ (forall scoop body,
        fuelScoop ship = Some scoop ->
        nearestCelestialBody ship = Some body ->
        canScoopFrom body = true ->
        fullOrTooFar imports body ship = true ->
        let ship' := after (handleFuelScoop imports deltaSeconds ship) in
        throws (handleFuelScoop imports deltaSeconds ship) = false
        /\ fuelTanks ship' = fuelTanks ship
        /\ isFuelScooping ship' = false
        /\ calls ship'
           = calls ship
             ++ (if isFuelScooping ship then [notifyObservers onFuelScoopEnd] else [])).
Proof.
  split; [apply handleFuelScoop_without |].
  intros scoop body Hs Hb Hc Hf ship'. unfold ship'.
  rewrite (handleFuelScoop_stops deltaSeconds ship scoop body Hs Hb Hc Hf).
  unfold stopped, after, throws. simpl.
  destruct (isFuelScooping ship) eqn:Hflag; simpl;
    repeat split; try reflexivity; try assumption.
  rewrite app_nil_r. reflexivity.
Qed.

(** X18.  The two notifications of the scoop stay level with its flag,
    whatever the tanks do when filled: if, before a run of
    [handleFuelScoop] calls, the scoop had started once more than it had
    ended when the ship was scooping and as often when it was not, then so
    it is after the run, throw or no throw. *)
Theorem handleFuelScoop_notifications_level (frames : list Q) (ship : Spaceship) :
  scoopNotificationsLevel ship ->
  scoopNotificationsLevel (after (handleFuelScoopEach imports frames ship)).
Proof.
  revert ship. induction frames as [|deltaSeconds later IH]; intros ship Hlevel.
  - exact Hlevel.
  - simpl. unfold bind.
    pose proof (handleFuelScoop_level deltaSeconds ship Hlevel) as Hstep.
    destruct (handleFuelScoop imports deltaSeconds ship) as [[[] | e] ship'].
    + apply IH. exact Hstep.
    + exact Hstep.
Qed.

End FuelScoopFacts.

Section FuelScoopRuns.

Variable imports : Imports.

(** X19.  When the scoop runs (a scoop, a star or a gas planet as nearest
    body, the tanks not full and the body not too far), [handleFuelScoop]
    marks the ship as scooping, notifies the start exactly when the ship
    was not scooping, and then ends as [refuel] ends when asked for the
    scoop's rate times the availability times the duration of the frame,
    the availability being 1 next to a star and 0.3 next to a gas planet.
    With tanks that return whenever they are asked for no more than their
    room the call returns, and only the tanks, the flag and the recorded
    calls have changed. *)
Theorem handleFuelScoop_runs_refuel (deltaSeconds : Q) (ship : Spaceship)
        (scoop : FuelScoop) (body : CelestialBody) (fuelAvailability : Q) :
  fuelScoop ship = Some scoop ->
  nearestCelestialBody ship = Some body ->
  (type (model (orbitalObject body)) = STAR /\ fuelAvailability = 1%Q)
  \/ (type (model (orbitalObject body)) = GAS_PLANET /\ fuelAvailability = 0.3%Q) ->
  fullOrTooFar imports body ship = false ->
  let marked :=
    if isFuelScooping ship then ship
    else set_calls (calls ship ++ [notifyObservers onFuelScoopStart])
           (set_isFuelScooping true ship) in
  let asked := (fuelPerSecond scoop * fuelAvailability * deltaSeconds)%Q in
  throws (handleFuelScoop imports deltaSeconds ship)
  = throws (refuel imports asked marked)
  /\ after (handleFuelScoop imports deltaSeconds ship)
     = after (refuel imports asked marked)
  /\ isFuelScooping (after (handleFuelScoop imports deltaSeconds ship)) = true
  /\ calls (after (handleFuelScoop imports deltaSeconds ship))
     = calls ship
       ++ (if isFuelScooping ship then [] else [notifyObservers onFuelScoopStart])
  /\ (takesWhatFits imports ->
      exists tanks',
        handleFuelScoop imports deltaSeconds ship
        = (Normal tt, set_fuelTanks tanks' marked)
        /\ List.length tanks' = List.length (fuelTanks ship)).
Proof.
  intros Hs Hb Htype Hf marked asked.
  assert (Hc : canScoopFrom body = true).
  { unfold canScoopFrom. destruct Htype as [[-> _] | [-> _]]; reflexivity. }
  assert (Hasked : (fuelPerSecond scoop
                    * match type (model (orbitalObject body)) with
                      | STAR => 1
                      | GAS_PLANET => 0.3
                      | _ => 0
                      end
                    * deltaSeconds)%Q = asked).
  { unfold asked. destruct Htype as [[-> ->] | [-> ->]]; reflexivity. }
  rewrite (handleFuelScoop_scoops imports deltaSeconds ship scoop body Hs Hb Hc Hf).
  rewrite Hasked.
  assert (Hmarked : (if isFuelScooping ship then ship
                     else set_calls (calls (set_isFuelScooping true ship)
                                     ++ [notifyObservers onFuelScoopStart])
                            (set_isFuelScooping true ship)) = marked) by reflexivity.
  rewrite Hmarked.
  pose proof (refuel_changes_tanks_only imports asked marked) as Honly.
  assert (Hflag : isFuelScooping marked = true).
  { unfold marked. destruct (isFuelScooping ship) eqn:E; [exact E | reflexivity]. }
  assert (Hcalls : calls marked
                   = calls ship
                     ++ (if isFuelScooping ship then []
                         else [notifyObservers onFuelScoopStart])).
  { unfold marked. destruct (isFuelScooping ship);
      [rewrite app_nil_r; reflexivity | reflexivity]. }
  assert (Htanks : fuelTanks marked = fuelTanks ship).
  { unfold marked. destruct (isFuelScooping ship); reflexivity. }
  split; [| split; [| split; [| split]]].
  - destruct (refuel imports asked marked) as [[taken | e] ship']; reflexivity.
  - destruct (refuel imports asked marked) as [[taken | e] ship']; reflexivity.
  - destruct (refuel imports asked marked) as [[taken | e] ship'];
      unfold after in *; simpl in *; rewrite Honly; exact Hflag.
  - destruct (refuel imports asked marked) as [[taken | e] ship'];
      unfold after in *; simpl in *; rewrite Honly; exact Hcalls.
  - intro Hfill.
    destruct (refuel_returns imports asked marked Hfill)
      as [taken [tanks' [Hcall Hlen]]].
    rewrite Hcall. exists tanks'. split; [reflexivity |].
    rewrite Hlen, Htanks. reflexivity.
Qed.

End FuelScoopRuns.

Lemma handleFuelScoop_idle_or_stopping_witness :
  handleFuelScoop ShipExamples.plainImports 1 ScoopExamples.lonelyWanderer
  = (Normal tt, ScoopExamples.lonelyWanderer)
  /\ calls (after (handleFuelScoop ShipExamples.plainImports 1
                     ScoopExamples.fullWanderer))
     = [notifyObservers onFuelScoopEnd].
Proof.
  split.
  - destruct (handleFuelScoop_idle_or_stopping ShipExamples.plainImports 1
                ScoopExamples.lonelyWanderer) as [Hidle _].
    apply Hidle. right. left. reflexivity.
  - destruct (handleFuelScoop_idle_or_stopping ShipExamples.plainImports 1
                ScoopExamples.fullWanderer) as [_ Hstop].
    destruct (Hstop (mkFuelScoop 5) ShipExamples.sun
                eq_refl eq_refl eq_refl eq_refl) as (_ & _ & _ & Hcalls).
    exact Hcalls.
Defined.

Lemma handleFuelScoop_notifications_level_witness :
  scoopNotificationsLevel ShipExamples.wanderer
  /\ scoopNotificationsLevel
       (after (handleFuelScoopEach ShipExamples.plainImports [1; 1; 20]%Q
                 ShipExamples.wanderer)).
Proof.
  split; [reflexivity |].
  apply (handleFuelScoop_notifications_level ShipExamples.plainImports
           [1; 1; 20]%Q ShipExamples.wanderer).
  reflexivity.
Defined.

Lemma handleFuelScoop_runs_refuel_witness :
  after (handleFuelScoop ShipExamples.plainImports 2 ShipExamples.wanderer)
  = after (refuel ShipExamples.plainImports (5 * 1 * 2)
             (set_calls [notifyObservers onFuelScoopStart]
                (set_isFuelScooping true ShipExamples.wanderer)))
  /\ throws (handleFuelScoop ShipExamples.plainImports 2 ShipExamples.wanderer)
     = false.
Proof.
  destruct (handleFuelScoop_runs_refuel ShipExamples.plainImports 2
              ShipExamples.wanderer (mkFuelScoop 5) ShipExamples.sun 1
              eq_refl eq_refl (or_introl (conj eq_refl eq_refl)) eq_refl)
    as (_ & Hafter & _ & _ & Hreturns).
  split; [exact Hafter |].
  destruct (Hreturns plainImports_takesWhatFits) as [tanks' [Hcall _]].
  rewrite Hcall. reflexivity.
Defined.

(** ** The spaceship: landing *)

Section Landing.

Variable imports : Imports.

Local Open Scope string_scope.

(** X20.  [engagePlanetaryLanding] puts the ship in state LANDING with its
    body animated, in every case.  Given a target it lands on that target;
    given none it lands on the closest walkable object; either way it
    returns and notifies the engagement last.  Given no target when there is
    no closest walkable object it throws "Landing target is null", and the
    ship is then in state LANDING all the same, without a landing target
    and with nothing notified. *)
Theorem engagePlanetaryLanding_target (given : option Transformable)
        (ship : Spaceship) :
  let result := engagePlanetaryLanding given ship in
  let ship' := after result in
  state ship' = LANDING
  /\ motionType ship' = ANIMATED
  /\ returned (isLanding ship') = Some true
  /\ landingTarget ship'
     = match given with
       | Some target => Some target
       | None => closestWalkableObject ship
       end
  /\ (landingTarget ship' <> None ->
      fst result = Normal tt
      /\ calls ship'
         = (calls ship
            ++ [console_log ["Landing sequence engaged"];
                notifyObservers onPlanetaryLandingEngaged])%list)
  /\ (given = None -> closestWalkableObject ship = None ->
      fst result = Throw "Landing target is null"
      /\ calls ship'
         = (calls ship ++ [console_log ["Landing sequence engaged"]])%list).
Proof.
  intros result ship'. unfold ship', result.
  unfold engagePlanetaryLanding, isLanding, external, assign, bind, read, ret,
    throw, after, returned.
  destruct given as [target |]; simpl.
  - repeat split; try reflexivity.
    + rewrite <- app_assoc. reflexivity.
    + discriminate.
    + discriminate.
  - destruct (closestWalkableObject ship) as [closest |] eqn:Hclosest; simpl.
    + repeat split; try reflexivity.
      * rewrite <- app_assoc. reflexivity.
      * discriminate.
      * discriminate.
    + split; [reflexivity |]. split; [reflexivity |]. split; [reflexivity |].
      split; [reflexivity |]. split.
      * intro H. exfalso. apply H. reflexivity.
      * intros _ _. split; reflexivity.
Qed.

Lemma engagePlanetaryLanding_target_witness :
  fst (engagePlanetaryLanding None ShipExamples.wanderer)
  = Throw "Landing target is null"
  /\ state (after (engagePlanetaryLanding None ShipExamples.wanderer)) = LANDING.
Proof.
  destruct (engagePlanetaryLanding_target None ShipExamples.wanderer)
    as (Hstate & _ & _ & _ & _ & Hthrow).
  split; [| exact Hstate].
  apply Hthrow; reflexivity.
Defined.

(** X21.  [spawnOnPad] leaves the ship landed at a facility, whatever it was
    doing: it returns, the ship is in state LANDED with the pad as its
    target landing pad and the pad's transform as its parent, it has no
    landing target, its body is static and its shape collides with dynamic
    objects as a part of the environment.  From there [takeOff] and
    [cancelLanding] alike leave the ship flying: not landed, not landing,
    not landed at a facility, with no target pad and no parent, its body
    dynamic and its shape a dynamic object that collides with dynamic
    objects and the environment. *)
Theorem spawnOnPad_then_leave (landingPad : LandingPad) (ship : Spaceship) :
  let landed := after (spawnOnPad imports landingPad ship) in
  (throws (spawnOnPad imports landingPad ship) = false
   /\ returned (isLanded landed) = Some true
   /\ returned (isLandedAtFacility landed) = Some true
   /\ returned (isLanding landed) = Some false
   /\ targetLandingPad landed = Some landingPad
   /\ parent landed = Some (padTransform landingPad)
   /\ landingTarget landed = None
   /\ motionType landed = STATIC
   /\ filterCollideMask landed = CollisionMask_DYNAMIC_OBJECTS imports
   /\ filterMembershipMask landed = CollisionMask_ENVIRONMENT imports)
  /\ (forall leave,
        leave = takeOff imports \/ leave = cancelLanding imports ->
        let flying := after (leave landed) in
        throws (leave landed) = false
        /\ returned (isLanded flying) = Some false
        /\ returned (isLanding flying) = Some false
        /\ returned (isLandedAtFacility flying) = Some false
        /\ targetLandingPad flying = None
        /\ parent flying = None
        /\ motionType flying = DYNAMIC
        /\ filterCollideMask flying
           = Z.lor (CollisionMask_DYNAMIC_OBJECTS imports)
                   (CollisionMask_ENVIRONMENT imports)
        /\ filterMembershipMask flying = CollisionMask_DYNAMIC_OBJECTS imports).
Proof.
  intro landed. split.
  - repeat split.
  - intros leave [-> | ->]; repeat split.
Qed.

End Landing.

Lemma spawnOnPad_then_leave_witness :
  returned (isLandedAtFacility
              (after (spawnOnPad ShipExamples.plainImports ShipExamples.pad
                        ShipExamples.wanderer)))
  = Some true
  /\ returned (isLandedAtFacility
                 (after (takeOff ShipExamples.plainImports
                           (after (spawnOnPad ShipExamples.plainImports
                                     ShipExamples.pad ShipExamples.wanderer)))))
     = Some false.
Proof.
  destruct (spawnOnPad_then_leave ShipExamples.plainImports ShipExamples.pad
              ShipExamples.wanderer) as [(_ & _ & Hlanded & _) Hleave].
  split; [exact Hlanded |].
  destruct (Hleave (takeOff ShipExamples.plainImports)) as (_ & _ & _ & Hflying & _).
  - left. reflexivity.
  - exact Hflying.
Defined.


End ShipFacts.
